(** * sensorfabric-oura: the CSV ingestion script [main.py]

    A shallow embedding of the ingestion script and the properties its
    specification states about it.

    - Python [str] values are sequences of Unicode code points: [pystr].
    - [re.match] is a backtracking matcher over the fragment of the regular
      expression language the four patterns of the script use.
    - The file system, [pandas], [configparser] and the AWS sink are the
      world the script runs in, a record [World] of their answers; every
      call the script makes to them is recorded in a trace of events.
    - Python exceptions are values of [pyexc]; a computation returns
      [Returns v] or [Raises e]. *)

From Stdlib Require Import List NArith ZArith Bool String Ascii Lia Arith.
Import ListNotations.

Set Implicit Arguments.

(** ** Strings *)

Definition pystr := list N.

(** A literal of the source: one code point per character. *)
Definition str (s : string) : pystr := map N_of_ascii (list_ascii_of_string s).

Fixpoint pystr_eqb (a b : pystr) : bool :=
  match a, b with
  | [], [] => true
  | x :: a', y :: b' => N.eqb x y && pystr_eqb a' b'
  | _, _ => false
  end.

Definition ch_underscore : N := 95.
Definition ch_space : N := 32.
Definition ch_hyphen : N := 45.
Definition ch_slash : N := 47.
Definition ch_newline : N := 10.
Definition ch_quote : N := 34.

Definition in_range (lo hi c : N) : bool := (N.leb lo c) && (N.leb c hi).
Definition ascii_digit (c : N) : bool := in_range 48 57 c.
Definition ascii_alpha (c : N) : bool := in_range 65 90 c || in_range 97 122 c.
Definition ascii_alnum (c : N) : bool := ascii_digit c || ascii_alpha c.

(** [str.replace(old, new)] for one-character [old] and [new]. *)
Definition replace (old new : N) (s : pystr) : pystr :=
  map (fun c => if N.eqb c old then new else c) s.

(** [s.split(sep)] for a one-character separator. *)
Fixpoint split_on (sep : N) (s : pystr) : list pystr :=
  match s with
  | [] => [[]]
  | c :: s' =>
      if N.eqb c sep then [] :: split_on sep s'
      else match split_on sep s' with
           | w :: ws => (c :: w) :: ws
           | [] => [[c]]
           end
  end.

Fixpoint ends_with (c : N) (s : pystr) : bool :=
  match s with
  | [] => false
  | [x] => N.eqb x c
  | _ :: s' => ends_with c s'
  end.

(** ** Regular expressions: the fragment used by the script *)

Inductive regex : Type :=
| Eps
| Chr (c : N)                     (* a literal character *)
| Cls (p : N -> bool)             (* a character class *)
| Seq (r1 r2 : regex)
| Alt (r1 r2 : regex)             (* r1|r2, r1 tried first *)
| PlusCls (p : N -> bool)         (* [class]+, greedy *)
| Grp (n : nat) (r : regex)       (* capturing group number n *)
| Bol                             (* ^ *)
| Eol                             (* $ *)
| Wordb.                          (* \b *)

Infix "+++" := Seq (at level 60, right associativity).

Fixpoint lit (l : pystr) : regex :=
  match l with
  | [] => Eps
  | c :: l' => Chr c +++ lit l'
  end.

Definition captures := list (nat * pystr).

Definition setcap (n : nat) (s : pystr) (c : captures) : captures := (n, s) :: c.

Fixpoint group (n : nat) (c : captures) : pystr :=
  match c with
  | [] => []
  | (k, s) :: c' => if Nat.eqb k n then s else group n c'
  end.

(** [$] without MULTILINE: at the end of the string, or just before a
    newline that is the last character. *)
Definition at_eol (s : pystr) : bool :=
  match s with
  | [] => true
  | [c] => N.eqb c ch_newline
  | _ => false
  end.

Definition lastc (prev : option N) (s : pystr) : option N :=
  match rev s with
  | [] => prev
  | c :: _ => Some c
  end.

(** The Unicode tables of the interpreter outside ASCII: the decimal digits
    (category Nd), the other alphanumeric characters ([str.isalnum]) and the
    white space ([str.isspace]).  Inside ASCII the classes are fixed. *)
Record unicode : Type := {
  nonascii_decimal : N -> bool;
  nonascii_alnum : N -> bool;
  nonascii_space : N -> bool
}.

Section Regex.

Variable U : unicode.

(** [\d] and [\w] of a [str] pattern. *)
Definition re_digit (c : N) : bool :=
  if N.ltb c 128 then ascii_digit c else nonascii_decimal U c.

Definition re_word (c : N) : bool :=
  if N.ltb c 128 then ascii_alnum c || N.eqb c ch_underscore
  else nonascii_decimal U c || nonascii_alnum U c.

Definition word_at (o : option N) : bool :=
  match o with
  | Some c => re_word c
  | None => false
  end.

Definition cont (R : Type) := option N -> pystr -> captures -> option R.

Fixpoint star_cls {R} (p : N -> bool) (prev : option N) (s : pystr)
         (k : option N -> pystr -> option R) : option R :=
  match s with
  | a :: s' =>
      if p a then
        match star_cls p (Some a) s' k with
        | Some x => Some x
        | None => k prev s
        end
      else k prev s
  | [] => k prev s
  end.

(** [rmatch r prev s c k]: match [r] at the front of [s], the character
    before [s] being [prev] ([None] at the start of the subject), then
    continue with [k]; a failing continuation makes the matcher
    backtrack. *)
Fixpoint rmatch {R} (r : regex) (prev : option N) (s : pystr) (c : captures)
         (k : cont R) : option R :=
  match r with
  | Eps => k prev s c
  | Chr x =>
      match s with
      | a :: s' => if N.eqb a x then k (Some a) s' c else None
      | [] => None
      end
  | Cls p =>
      match s with
      | a :: s' => if p a then k (Some a) s' c else None
      | [] => None
      end
  | Seq r1 r2 => rmatch r1 prev s c (fun prev' s' c' => rmatch r2 prev' s' c' k)
  | Alt r1 r2 =>
      match rmatch r1 prev s c k with
      | Some x => Some x
      | None => rmatch r2 prev s c k
      end
  | PlusCls p =>
      match s with
      | a :: s' =>
          if p a then star_cls p (Some a) s' (fun prev' s'' => k prev' s'' c)
          else None
      | [] => None
      end
  | Grp n r =>
      rmatch r prev s c
        (fun prev' s' c' =>
           k prev' s' (setcap n (firstn (List.length s - List.length s') s) c'))
  | Bol => match prev with None => k prev s c | Some _ => None end
  | Eol => if at_eol s then k prev s c else None
  | Wordb =>
      if xorb (word_at prev) (word_at (hd_error s)) then k prev s c else None
  end.

(** [re.match(pattern, s)]: anchored at the start, not at the end. *)
Definition re_match (r : regex) (s : pystr) : option captures :=
  rmatch r None s [] (fun _ _ c => Some c).

Definition is_match (r : regex) (s : pystr) : bool :=
  match re_match r s with Some _ => true | None => false end.

(** *** The four patterns of the script *)

(** [r'^PPID [0-9]+ Data$'] *)
Definition dir_name_active : regex :=
  Bol +++ lit (str "PPID ") +++ PlusCls ascii_digit +++ lit (str " Data") +++ Eol.

(** [r'^PPID [0-9]+ Data - withdrew$'] *)
Definition dir_name_withdrew : regex :=
  Bol +++ lit (str "PPID ") +++ PlusCls ascii_digit
      +++ lit (str " Data - withdrew") +++ Eol.

(** The class [[0-9a-zA-Z \-]]. *)
Definition table_char (c : N) : bool :=
  ascii_alnum c || N.eqb c ch_space || N.eqb c ch_hyphen.

(** [r'^(\w+)_(\w+)_(\w+)_([0-9a-zA-Z \-]+)\.csv$'] *)
Definition file_name : regex :=
  Bol +++ Grp 1 (PlusCls re_word) +++ Chr ch_underscore
      +++ Grp 2 (PlusCls re_word) +++ Chr ch_underscore
      +++ Grp 3 (PlusCls re_word) +++ Chr ch_underscore
      +++ Grp 4 (PlusCls table_char) +++ lit (str ".csv") +++ Eol.

(** [r'\b(\d{4})-(0[1-9]|1[0-2])-(0[1-9]|1[0-9]|2[0-9]|3[01])\b'] *)
Definition date_exp : regex :=
  Wordb
    +++ Grp 1 (Cls re_digit +++ Cls re_digit +++ Cls re_digit +++ Cls re_digit)
    +++ Chr ch_hyphen
    +++ Grp 2 (Alt (Chr 48 +++ Cls (in_range 49 57))
                   (Chr 49 +++ Cls (in_range 48 50)))
    +++ Chr ch_hyphen
    +++ Grp 3 (Alt (Chr 48 +++ Cls (in_range 49 57))
              (Alt (Chr 49 +++ Cls (in_range 48 57))
              (Alt (Chr 50 +++ Cls (in_range 48 57))
                   (Chr 51 +++ Cls (in_range 48 49)))))
    +++ Wordb.

End Regex.

(** ** Python values, exceptions and the event trace *)

Inductive pyexc : Type :=
| ValueError (msg : pystr)        (* ValueError and its subclasses *)
| KeyError (key : pystr)
| IndexError
| TypeError
| OSError (path : pystr)          (* FileNotFoundError, NotADirectoryError, ... *)
| PlainException (msg : pystr)    (* raise Exception(msg) *)
| OtherException (name : pystr)   (* any other subclass of Exception *)
| BaseOnly (name : pystr).        (* KeyboardInterrupt, SystemExit: BaseException
                                     that is not an Exception *)

Definition is_Exception (e : pyexc) : bool :=
  match e with BaseOnly _ => false | _ => true end.

Definition is_ValueError (e : pyexc) : bool :=
  match e with ValueError _ => true | _ => false end.

Inductive pyresult (A : Type) : Type :=
| Returns (a : A)
| Raises (e : pyexc).

Arguments Returns {A} a.
Arguments Raises {A} e.

(** One cell of a column. *)
Inductive cell : Type :=
| CNone
| CStr (s : pystr)
| CInt (z : Z)
| CFloat (bits : N)
| CBool (b : bool)
| CTimestamp (ns : Z).

(** The type and the values of a [pd.Series], in the order of its rows.  Its
    index is the default 0..n-1, as [pd.read_csv] builds when every row is
    as long as the header, unless an index is given with it ([ColIndexed]
    below). *)
Record Series : Type := {
  s_dtype : pystr;
  s_values : list cell
}.

(** What [sampleEntry] may be handed: a series with the default index
    0..n-1, where label 0 is position 0; a series with an index of its own,
    of distinct integer labels, one per value, as [pd.read_csv] builds when
    the rows have one field more than the header; or any other object, of
    which only the behaviour of [obj[0]] matters. *)
Inductive column : Type :=
| ColSeries (s : Series)
| ColIndexed (labels : list Z) (s : Series)
| ColOpaque (item0 : pyresult cell).

(** A [pd.DataFrame] with the default index 0..n-1 on its rows: a column
    read from it is a series with that index. *)
Record DataFrame : Type := {
  df_rows : nat;
  df_cols : list (pystr * Series)
}.

(** The values the variable [data] of [ingestData] takes. *)
Inductive pyobj : Type :=
| ODataFrame (df : DataFrame)
| OSeries (s : Series)
| ONone
| OTypeType.                      (* type(str), the class [type] *)

Record sink_args : Type := {
  sa_df : pyobj;
  sa_path : pystr;
  sa_dataset : bool;
  sa_database : pystr;
  sa_table : pystr;
  sa_partition_cols : list pystr
}.

Inductive event : Type :=
| EvPrint (msg : pystr)
| EvIsDir (path : pystr)
| EvListDir (path : pystr)
| EvOpen (path : pystr)
| EvReadLines (path : pystr)
| EvReadCsv (path : pystr)
| EvConfigRead (path : pystr)
| EvToParquet (a : sink_args).

Definition trace := list event.

(** A section of a parsed configuration file, as [config[name]] shows it
    (the options of [DEFAULT] included, the names in lower case): each
    option with what reading it gives. *)
Definition cfg_section := list (pystr * pyresult pystr).

Record AwsConfig : Type := {
  aws_database : pystr;
  aws_s3_data : pystr
}.

Record Config : Type := {
  whitelist_tables : list pystr;
  aws : AwsConfig
}.

(** The world the script runs in. *)
Record World : Type := {
  w_unicode : unicode;
  w_isdir : pystr -> bool;
  w_listdir : pystr -> pyresult (list pystr);
  w_open : pystr -> pyresult unit;
  w_readlines : pystr -> pyresult (list pystr);
  w_read_csv : pystr -> pyresult DataFrame;
  w_config_read : pystr -> pyresult (list (pystr * cfg_section));
  w_to_datetime : column -> pyresult Series;
  (* the sink may answer differently from call to call: it sees the trace *)
  w_to_parquet : trace -> sink_args -> pyresult unit
}.

(** ** The monad of the script: a trace and exceptions *)

Definition M (A : Type) : Type := trace -> trace * pyresult A.

Definition ret {A} (a : A) : M A := fun t => (t, Returns a).

Definition raise {A} (e : pyexc) : M A := fun t => (t, Raises e).

Definition bind {A B} (m : M A) (f : A -> M B) : M B :=
  fun t =>
    match m t with
    | (t', Returns a) => f a t'
    | (t', Raises e) => (t', Raises e)
    end.

Definition lift {A} (r : pyresult A) : M A := fun t => (t, r).

Definition emit (e : event) : M unit := fun t => (t ++ [e], Returns tt).

(** [try: body except <handles> as e: handler e] *)
Definition try_except {A} (body : M A) (handles : pyexc -> bool)
           (handler : pyexc -> M A) : M A :=
  fun t =>
    match body t with
    | (t', Raises e) => if handles e then handler e t' else (t', Raises e)
    | r => r
    end.

Declare Scope py_scope.
Delimit Scope py_scope with py.
Notation "x <- m ;; k" := (bind m (fun x => k))
  (at level 61, m at next level, right associativity) : py_scope.
Notation "m ;; k" := (bind m (fun _ => k))
  (at level 61, right associativity) : py_scope.
Open Scope py_scope.

Definition print (msg : pystr) : M unit := emit (EvPrint msg).

Fixpoint for_each {A} (f : A -> M unit) (l : list A) : M unit :=
  match l with
  | [] => ret tt
  | x :: l' => f x ;; for_each f l'
  end.

(** ** Library functions the script calls *)

(** [os.path.join(a, b)] on POSIX. *)
Definition path_join (a b : pystr) : pystr :=
  match b with
  | c :: _ =>
      if N.eqb c ch_slash then b
      else if match a with [] => true | _ => ends_with ch_slash a end
           then a ++ b else a ++ [ch_slash] ++ b
  | [] => if match a with [] => true | _ => ends_with ch_slash a end
          then a else a ++ [ch_slash]
  end.

Definition py_isspace (U : unicode) (c : N) : bool :=
  if N.ltb c 128 then in_range 9 13 c || in_range 28 32 c
  else nonascii_space U c.

Fixpoint lstrip (U : unicode) (s : pystr) : pystr :=
  match s with
  | c :: s' => if py_isspace U c then lstrip U s' else s
  | [] => []
  end.

(** [s.strip()] *)
Definition strip (U : unicode) (s : pystr) : pystr :=
  rev (lstrip U (rev (lstrip U s))).

(** [x in l] for a list of strings. *)
Definition str_in (x : pystr) (l : list pystr) : bool := existsb (pystr_eqb x) l.

Fixpoint assoc {A} (k : pystr) (l : list (pystr * A)) : option A :=
  match l with
  | [] => None
  | (k', v) :: l' => if pystr_eqb k' k then Some v else assoc k l'
  end.

Fixpoint assoc_set {A} (k : pystr) (v : A) (l : list (pystr * A)) : list (pystr * A) :=
  match l with
  | [] => [(k, v)]
  | (k', v') :: l' => if pystr_eqb k' k then (k, v) :: l' else (k', v') :: assoc_set k v l'
  end.

(** [df[col]] *)
Definition df_getitem (df : DataFrame) (col : pystr) : pyresult Series :=
  match assoc col (df_cols df) with
  | Some s => Returns s
  | None => Raises (KeyError col)
  end.

(** [df[col] = series] *)
Definition df_setitem (df : DataFrame) (col : pystr) (s : Series) : DataFrame :=
  {| df_rows := df_rows df; df_cols := assoc_set col s (df_cols df) |}.

Definition dtype_object : pystr := str "object".

(** [df[col] = scalar]: the scalar on every row. *)
Definition df_set_scalar (df : DataFrame) (col : pystr) (v : cell) : DataFrame :=
  df_setitem df col {| s_dtype := dtype_object; s_values := repeat v (df_rows df) |}.

(** [data[col]] for the values [data] takes in [ingestData]. *)
Definition obj_getitem (o : pyobj) (col : pystr) : pyresult column :=
  match o with
  | ODataFrame df =>
      match df_getitem df col with
      | Returns s => Returns (ColSeries s)
      | Raises e => Raises e
      end
  | OSeries _ => Raises (KeyError col)
  | ONone => Raises TypeError
  | OTypeType => Returns (ColOpaque (Raises TypeError))   (* the alias type[col] *)
  end.

(** [data[col] = series] *)
Definition obj_setitem (o : pyobj) (col : pystr) (s : Series) : pyresult pyobj :=
  match o with
  | ODataFrame df => Returns (ODataFrame (df_setitem df col s))
  | _ => Raises TypeError
  end.

(** The value stored under [label] in a series with an integer index: the
    labels and the values are walked together. *)
Fixpoint at_label (label : Z) (labels : list Z) (values : list cell) : option cell :=
  match labels, values with
  | l :: labels', v :: values' =>
      if Z.eqb l label then Some v else at_label label labels' values'
  | _, _ => None
  end.

(** [column[0]]: on a series the integer key is a label, not a position.
    With the default index label 0 is position 0; with an integer index the
    value under label 0 is looked up, and [KeyError] is raised when no row
    carries that label. *)
Definition getitem0 (c : column) : pyresult cell :=
  match c with
  | ColSeries s =>
      match s_values s with
      | x :: _ => Returns x
      | [] => Raises (KeyError (str "0"))
      end
  | ColIndexed labels s =>
      match at_label 0%Z labels (s_values s) with
      | Some x => Returns x
      | None => Raises (KeyError (str "0"))
      end
  | ColOpaque r => r
  end.

(** [s[-1]] *)
Definition getitem_last (s : pystr) : pyresult N :=
  match rev s with
  | c :: _ => Returns c
  | [] => Raises IndexError
  end.

(** ** The script *)

Section Script.

Variable W : World.

Let U : unicode := w_unicode W.

(** A call into the world: recorded, then answered. *)
Definition call {A} (e : event) (r : pyresult A) : M A := emit e ;; lift r.

(** [str(e)] for a caught exception. *)
Definition exc_str (e : pyexc) : pystr :=
  match e with
  | ValueError msg => msg
  | KeyError k => k
  | OSError p => p
  | PlainException msg => msg
  | OtherException n => n
  | BaseOnly n => n
  | IndexError | TypeError => []
  end.

Definition sampleEntry (column : column) : pyresult cell :=
  let sample := CNone in
  match getitem0 column with    (* try: sample = column[0] *)
  | Returns v => Returns v
  | Raises _ => Returns sample  (* except: pass *)
  end.

Definition smartTyper (example : cell) (df : pyobj) (col : pystr)
           (convert : bool) : M pyobj :=
  match example with
  | CStr ex =>
      try_except
        (if is_match U (date_exp U) ex then
           c <- lift (obj_getitem df col) ;;
           useries <- lift (w_to_datetime W c) ;;
           print (str "Log : Automatically updated " ++ [ch_quote] ++ col
                    ++ [ch_quote] ++ str " data type from " ++ [ch_quote]
                    ++ str "<class 'str'>" ++ [ch_quote] ++ str " to "
                    ++ [ch_quote] ++ s_dtype useries ++ [ch_quote]) ;;
           if convert then
             df' <- lift (obj_setitem df col useries) ;;
             ret df'
           else ret (OSeries useries)
         else ret ONone)       (* the function ends without a return *)
        is_ValueError
        (fun ve =>
           print (str "Warning : Automatic conversion of type failed for "
                    ++ col ++ str " with example value " ++ ex
                    ++ str " with the error - " ++ exc_str ve) ;;
           ret ONone)
  | _ => ret OTypeType
  end.

(** The path [ingestData] computes for the sink. *)
Definition table_path (s3_path tablename : pystr) : pyresult pystr :=
  let table_path := s3_path ++ str "/" ++ tablename ++ str "/" in
  match getitem_last s3_path with
  | Returns c =>
      Returns (if N.eqb c ch_slash then s3_path ++ tablename ++ str "/"
               else table_path)
  | Raises e => Raises e
  end.

Definition to_parquet (a : sink_args) : M unit :=
  fun t => (t ++ [EvToParquet a], w_to_parquet W t a).

Definition ingestData (data : DataFrame) (pid tablename : pystr)
           (config : Config) (enableTyper : bool) : M unit :=
  print (str "Log : Ingesting Tablename - " ++ tablename ++ str " for pid " ++ pid) ;;
  let s3_path := aws_s3_data (aws config) in
  let database := aws_database (aws config) in
  path <- lift (table_path s3_path tablename) ;;
  let data := ODataFrame (df_set_scalar data (str "pid") (CStr pid)) in
  data <-
    (if enableTyper then
       data <-
         (if pystr_eqb tablename (str "activity") || pystr_eqb tablename (str "sleep")
          then
            c <- lift (obj_getitem data (str "summary_date")) ;;
            example <- lift (sampleEntry c) ;;
            smartTyper example data (str "summary_date") true
          else ret data) ;;
       (if pystr_eqb tablename (str "sleep_periods") then
          c <- lift (obj_getitem data (str "day")) ;;
          example <- lift (sampleEntry c) ;;
          smartTyper example data (str "day") true
        else ret data)
     else ret data) ;;
  try_except
    (to_parquet {| sa_df := data;
                   sa_path := path;
                   sa_dataset := true;
                   sa_database := database;
                   sa_table := tablename;
                   sa_partition_cols := [str "pid"] |})
    is_Exception
    (fun e => print (str "Error : Could not create table " ++ tablename
                       ++ str " on AWS.")).

(** The body of the loop of [participantIngest]. *)
Definition participantIngest_file (subdir : pystr) (config : Config)
           (file : pystr) : M unit :=
  match re_match U (file_name U) file with
  | Some m =>
      let pid := group 3 m in
      let tablename := group 4 m in
      let tablename := replace ch_space ch_underscore tablename in
      let tablename := replace ch_hyphen ch_underscore tablename in
      if str_in tablename (whitelist_tables config) then
        call (EvOpen (path_join subdir file)) (w_open W (path_join subdir file)) ;;
        data <- call (EvReadCsv (path_join subdir file))
                     (w_read_csv W (path_join subdir file)) ;;
        ingestData data pid tablename config true
      else ret tt
  | None =>
      print (str "Warning : File name " ++ file
               ++ str " does not follow naming convention. Skipping it.")
  end.

Definition participantIngest (subdir : pystr) (config : Config) : M unit :=
  files <- call (EvListDir subdir) (w_listdir W subdir) ;;
  for_each (participantIngest_file subdir config) files.

(** The body of the loop of [looper]. *)
Definition looper_dir (dirpath : pystr) (config : Config)
           (directory : pystr) : M unit :=
  isdir <- call (EvIsDir (path_join dirpath directory))
                (Returns (w_isdir W (path_join dirpath directory))) ;;
  (if negb isdir then
     print (str "Warning : " ++ directory ++ str " is not a directory.")
   else ret tt) ;;
  let match_active := re_match U dir_name_active directory in
  let match_withdrawn := re_match U dir_name_withdrew directory in
  match match_withdrawn with
  | Some _ =>
      print (str "Log : Skipping " ++ directory
               ++ str " as its been marked as withdrawn.")
  | None =>
      match match_active with
      | Some _ => participantIngest (path_join dirpath directory) config
      | None =>
          print (str "Warning : Directory name " ++ directory
                   ++ str " does not follow naming convention. Skipping it.")
      end
  end.

Definition looper (dirpath : pystr) (config : Config) : M unit :=
  directories <- call (EvListDir dirpath) (w_listdir W dirpath) ;;
  for_each (looper_dir dirpath config) directories.

Definition whitelist_file : pystr := str "whitelist.txt".
Definition config_file : pystr := str "config.cfg".

(** [key in section] *)
Definition has_option (sec : cfg_section) (key : pystr) : bool :=
  match assoc key sec with Some _ => true | None => false end.

(** [section[key]] *)
Definition get_option (sec : cfg_section) (key : pystr) : pyresult pystr :=
  match assoc key sec with
  | Some r => r
  | None => Raises (KeyError key)
  end.

Definition loadConfig : M Config :=
  call (EvOpen whitelist_file) (w_open W whitelist_file) ;;
  lines <- call (EvReadLines whitelist_file) (w_readlines W whitelist_file) ;;
  let whitelist_tables := map (strip U) lines in
  sections <- call (EvConfigRead config_file) (w_config_read W config_file) ;;
  aws <- lift (match assoc (str "AWS") sections with
               | Some sec => Returns sec
               | None => Raises (KeyError (str "AWS"))
               end) ;;
  if negb (has_option aws (str "aws_database") && has_option aws (str "aws_s3_data"))
  then raise (PlainException (str "Malformed config file section - aws"))
  else
    database <- lift (get_option aws (str "aws_database")) ;;
    s3_data <- lift (get_option aws (str "aws_s3_data")) ;;
    ret {| whitelist_tables := whitelist_tables;
           aws := {| aws_database := database; aws_s3_data := s3_data |} |}.

(** [main], for the command line argument [directory]. *)
Definition main (directory : pystr) : M unit :=
  config <- loadConfig ;;
  looper directory config.

End Script.

(** The table name [participantIngest] derives from the raw name of the file. *)
Definition normalize (raw : pystr) : pystr :=
  replace ch_hyphen ch_underscore (replace ch_space ch_underscore raw).

(** ** The classifications the loops implement *)

Inductive dir_class : Type := Active | Withdrawn | Invalid.

(** The decision of the [if]/[elif]/[else] of [looper]. *)
Definition classifyDirectory (U : unicode) (name : pystr) : dir_class :=
  match re_match U dir_name_withdrew name with
  | Some _ => Withdrawn
  | None =>
      match re_match U dir_name_active name with
      | Some _ => Active
      | None => Invalid
      end
  end.

Inductive file_class : Type :=
| Matched (participantId rawTableName : pystr)
| Unmatched.

(** The decision of the [if match:] of [participantIngest]. *)
Definition classifyFile (U : unicode) (name : pystr) : file_class :=
  match re_match U (file_name U) name with
  | Some m => Matched (group 3 m) (group 4 m)
  | None => Unmatched
  end.

(** The test [smartTyper] makes on a string example. *)
Definition sniff (U : unicode) (example : cell) : bool :=
  match example with
  | CStr ex => is_match U (date_exp U) ex
  | _ => false
  end.

(** ** What a pattern denotes

    [Matches U r prev s1 s2 c c']: [r] matches [s1], the subject going on
    with [s2] and the character before [s1] being [prev]; the groups
    recorded go from [c] to [c']. *)

Inductive Matches (U : unicode) :
  regex -> option N -> pystr -> pystr -> captures -> captures -> Prop :=
| MEps prev s2 c : Matches U Eps prev [] s2 c c
| MChr x prev s2 c : Matches U (Chr x) prev [x] s2 c c
| MCls (p : N -> bool) a prev s2 c :
    p a = true -> Matches U (Cls p) prev [a] s2 c c
| MSeq r1 r2 prev s1 s1' s2 c c1 c2 :
    Matches U r1 prev s1 (s1' ++ s2) c c1 ->
    Matches U r2 (lastc prev s1) s1' s2 c1 c2 ->
    Matches U (Seq r1 r2) prev (s1 ++ s1') s2 c c2
| MAltL r1 r2 prev s1 s2 c c' :
    Matches U r1 prev s1 s2 c c' -> Matches U (Alt r1 r2) prev s1 s2 c c'
| MAltR r1 r2 prev s1 s2 c c' :
    Matches U r2 prev s1 s2 c c' -> Matches U (Alt r1 r2) prev s1 s2 c c'
| MPlus (p : N -> bool) a s1 prev s2 c :
    p a = true -> forallb p s1 = true ->
    Matches U (PlusCls p) prev (a :: s1) s2 c c
| MGrp n r prev s1 s2 c c' :
    Matches U r prev s1 s2 c c' ->
    Matches U (Grp n r) prev s1 s2 c (setcap n s1 c')
| MBol s2 c : Matches U Bol None [] s2 c c
| MEol prev s2 c : at_eol s2 = true -> Matches U Eol prev [] s2 c c
| MWordb prev s2 c :
    xorb (word_at U prev) (word_at U (hd_error s2)) = true ->
    Matches U Wordb prev [] s2 c c.

(** A non-empty run of characters of a class. *)
Definition run (p : N -> bool) (s : pystr) : Prop :=
  s <> [] /\ forallb p s = true.

(** The two directory patterns differ in the text after the digits. *)
Definition dir_pattern (suffix : pystr) : regex :=
  Bol +++ lit (str "PPID ") +++ PlusCls ascii_digit +++ lit suffix +++ Eol.

(** [PPID <digits><suffix>], or that followed by one newline. *)
Definition dir_shape (suffix name : pystr) : Prop :=
  exists ds, run ascii_digit ds /\
             (name = str "PPID " ++ ds ++ suffix
              \/ name = str "PPID " ++ ds ++ suffix ++ [ch_newline]).

Definition file_body (g1 g2 g3 g4 : pystr) : pystr :=
  g1 ++ str "_" ++ g2 ++ str "_" ++ g3 ++ str "_" ++ g4 ++ str ".csv".

(** [w1_w2_pid_raw.csv], or that followed by one newline: [w1], [w2] and
    [pid] runs of word characters, [raw] a run of [[0-9a-zA-Z \-]]. *)
Definition file_shape (U : unicode) (name pid raw : pystr) : Prop :=
  exists g1 g2,
    run (re_word U) g1 /\ run (re_word U) g2 /\ run (re_word U) pid
    /\ run table_char raw
    /\ (name = file_body g1 g2 pid raw
        \/ name = file_body g1 g2 pid raw ++ [ch_newline]).

Fixpoint count (sep : N) (s : pystr) : nat :=
  match s with
  | [] => 0
  | c :: s' => (if N.eqb c sep then 1 else 0) + count sep s'
  end.

(** [sep.join(l)] for a one-character separator. *)
Fixpoint join (sep : N) (l : list pystr) : pystr :=
  match l with
  | [] => []
  | [w] => w
  | w :: l' => w ++ sep :: join sep l'
  end.

(** The grammar of the file names as the specification words it: exactly
    four segments between underscores, three alphanumeric tags, then a
    segment of alphanumerics, spaces and hyphens followed by [.csv]. *)
Definition grammar4 (name t1 t2 t3 t4 : pystr) : Prop :=
  split_on ch_underscore name = [t1; t2; t3; t4 ++ str ".csv"]
  /\ run ascii_alnum t1 /\ run ascii_alnum t2 /\ run ascii_alnum t3
  /\ run table_char t4.

(** The month and the day as the date pattern reads them. *)
Definition month_ok (m1 m2 : N) : bool :=
  (N.eqb m1 48 && in_range 49 57 m2) || (N.eqb m1 49 && in_range 48 50 m2).

Definition day_ok (d1 d2 : N) : bool :=
  (N.eqb d1 48 && in_range 49 57 d2) || (N.eqb d1 49 && in_range 48 57 d2)
  || (N.eqb d1 50 && in_range 48 57 d2) || (N.eqb d1 51 && in_range 48 49 d2).

(** [YYYY-MM-DD] at the start of the string, the month [01]-[12], the day
    [01]-[31], and no word character right after the day. *)
Definition date_shape (U : unicode) (s : pystr) : Prop :=
  exists y1 y2 y3 y4 m1 m2 d1 d2 rest,
    s = [y1; y2; y3; y4; ch_hyphen; m1; m2; ch_hyphen; d1; d2] ++ rest
    /\ re_digit U y1 = true /\ re_digit U y2 = true
    /\ re_digit U y3 = true /\ re_digit U y4 = true
    /\ month_ok m1 m2 = true /\ day_ok d1 d2 = true
    /\ word_at U (hd_error rest) = false.

(** The manual dispatch of [ingestData]: the column to retype, per table. *)
Definition dispatch (tablename : pystr) : option pystr :=
  if pystr_eqb tablename (str "activity") || pystr_eqb tablename (str "sleep")
  then Some (str "summary_date")
  else if pystr_eqb tablename (str "sleep_periods") then Some (str "day")
  else None.

Definition is_print (e : event) : bool :=
  match e with EvPrint _ => true | _ => false end.

(** The calls into the world of a trace: the trace without what was printed. *)
Definition calls (t : trace) : trace := filter (fun e => negb (is_print e)) t.

(** The same world with another sink. *)
Definition with_sink (W : World) (sink : trace -> sink_args -> pyresult unit) : World :=
  {| w_unicode := w_unicode W;
     w_isdir := w_isdir W;
     w_listdir := w_listdir W;
     w_open := w_open W;
     w_readlines := w_readlines W;
     w_read_csv := w_read_csv W;
     w_config_read := w_config_read W;
     w_to_datetime := w_to_datetime W;
     w_to_parquet := sink |}.

(** A sink that fails only with instances of [Exception]. *)
Definition sink_raises_Exception (sink : trace -> sink_args -> pyresult unit) : Prop :=
  forall t a e, sink t a = Raises e -> is_Exception e = true.

(** The arguments of the call to [wr.s3.to_parquet]. *)
Definition sink_call (data : pyobj) (path tablename : pystr) (config : Config)
  : sink_args :=
  {| sa_df := data;
     sa_path := path;
     sa_dataset := true;
     sa_database := aws_database (aws config);
     sa_table := tablename;
     sa_partition_cols := [str "pid"] |}.

Definition is_print_event (e : event) : Prop := is_print e = true.

Definition ingest_line (tablename pid : pystr) : event :=
  EvPrint (str "Log : Ingesting Tablename - " ++ tablename ++ str " for pid " ++ pid).

Definition error_line (tablename : pystr) : event :=
  EvPrint (str "Error : Could not create table " ++ tablename ++ str " on AWS.").

(** What a computation adds to the trace it starts from. *)
Definition emitted {A} (m : M A) (t : trace) : trace :=
  skipn (List.length t) (fst (m t)).

(** A computation only adds events, all of them in [P]. *)
Definition extends {A} (P : event -> Prop) (m : M A) : Prop :=
  forall t, exists l, fst (m t) = t ++ l /\ Forall P l.

(** Two computations that make the same calls and end the same way,
    whatever they print. *)
Definition sim {A} (m1 m2 : M A) : Prop :=
  forall t1 t2, calls t1 = calls t2 ->
    calls (fst (m1 t1)) = calls (fst (m2 t2)) /\ snd (m1 t1) = snd (m2 t2).

Definition typer_log_line (col dtype : pystr) : event :=
  EvPrint (str "Log : Automatically updated " ++ [ch_quote] ++ col ++ [ch_quote]
             ++ str " data type from " ++ [ch_quote] ++ str "<class 'str'>"
             ++ [ch_quote] ++ str " to " ++ [ch_quote] ++ dtype ++ [ch_quote]).

Definition typer_warning_line (col example msg : pystr) : event :=
  EvPrint (str "Warning : Automatic conversion of type failed for " ++ col
             ++ str " with example value " ++ example
             ++ str " with the error - " ++ msg).

(** How [ingestData] ends once it has built the arguments [a] of the sink
    call, the trace being [t] then. *)
Definition upload_outcome (W : World) (t : trace) (a : sink_args) (tablename : pystr)
  : trace * pyresult unit :=
  match w_to_parquet W t a with
  | Returns _ => (t ++ [EvToParquet a], Returns tt)
  | Raises e =>
      if is_Exception e
      then (t ++ [EvToParquet a; error_line tablename], Returns tt)
      else (t ++ [EvToParquet a], Raises e)
  end.

(** *** A world to run the script in *)

Definition ascii_only : unicode :=
  {| nonascii_decimal := fun _ => false;
     nonascii_alnum := fun _ => false;
     nonascii_space := fun _ => false |}.

Definition demo_dates : Series :=
  {| s_dtype := str "object";
     s_values := [CStr (str "2024-01-15"); CStr (str "2024-01-16")] |}.

Definition demo_frame : DataFrame :=
  {| df_rows := 2;
     df_cols := [(str "summary_date", demo_dates);
                 (str "score", {| s_dtype := str "int64";
                                  s_values := [CInt 81%Z; CInt 77%Z] |})] |}.

Definition demo_listdir (path : pystr) : pyresult (list pystr) :=
  if pystr_eqb path (str "root") then
    Returns [str "PPID 001 Data"; str "PPID 002 Data - withdrew"; str "notes"]
  else if pystr_eqb path (str "root/PPID 001 Data") then
    Returns [str "a_b_001_sleep.csv"; str "bad name.csv"; str "a_b_001_activity.csv"]
  else if pystr_eqb path (str "root/PPID 002 Data - withdrew") then
    Returns [str "a_b_002_sleep.csv"]
  else Raises (OSError path).

Definition demo_to_datetime (c : column) : pyresult Series :=
  match c with
  | ColSeries s | ColIndexed _ s =>
      Returns {| s_dtype := str "datetime64[ns]";
                 s_values := map (fun _ => CTimestamp 0%Z) (s_values s) |}
  | ColOpaque _ => Raises TypeError
  end.

Definition demo_sections : list (pystr * cfg_section) :=
  [(str "AWS", [(str "aws_database", Returns (str "oura"));
                (str "aws_s3_data", Returns (str "s3://bucket/data"))])].

Definition demo_world : World :=
  {| w_unicode := ascii_only;
     w_isdir := fun p => negb (pystr_eqb p (str "root/notes"));
     w_listdir := demo_listdir;
     w_open := fun _ => Returns tt;
     w_readlines := fun _ => Returns [str "sleep" ++ [ch_newline];
                                      str "activity" ++ [ch_newline]];
     w_read_csv := fun _ => Returns demo_frame;
     w_config_read := fun _ => Returns demo_sections;
     w_to_datetime := demo_to_datetime;
     w_to_parquet := fun _ _ => Returns tt |}.

Definition demo_converted : Series :=
  {| s_dtype := str "datetime64[ns]";
     s_values := [CTimestamp 0%Z; CTimestamp 0%Z] |}.

(** The batch of [a_b_001_sleep.csv] as it reaches the sink. *)
Definition demo_uploaded : DataFrame :=
  df_setitem (df_set_scalar demo_frame (str "pid") (CStr (str "001")))
             (str "summary_date") demo_converted.

(** A sink that is down, and one that always works. *)
Definition sink_down : trace -> sink_args -> pyresult unit :=
  fun _ _ => Raises (OtherException (str "ClientError")).

Definition sink_up : trace -> sink_args -> pyresult unit :=
  fun _ _ => Returns tt.

(** A sink interrupted from the keyboard while it uploads:
    [KeyboardInterrupt] is not an instance of [Exception]. *)
Definition sink_interrupted : trace -> sink_args -> pyresult unit :=
  fun _ _ => Raises (BaseOnly (str "KeyboardInterrupt")).

(** The sink as the library behaves: it raises when it is not handed a
    data frame. *)
Definition sink_checks : trace -> sink_args -> pyresult unit :=
  fun _ a =>
    match sa_df a with
    | ODataFrame _ => Returns tt
    | _ => Raises (OtherException (str "AttributeError"))
    end.

(** A file whose date column does not parse: the 31st of February. *)
Definition bad_dates : Series :=
  {| s_dtype := str "object";
     s_values := [CStr (str "2024-02-31"); CStr (str "2024-03-01")] |}.

Definition bad_frame : DataFrame :=
  {| df_rows := 2;
     df_cols := [(str "summary_date", bad_dates);
                 (str "score", {| s_dtype := str "int64";
                                  s_values := [CInt 81%Z; CInt 77%Z] |})] |}.

Definition bad_dates_world : World :=
  {| w_unicode := ascii_only;
     w_isdir := w_isdir demo_world;
     w_listdir := demo_listdir;
     w_open := fun _ => Returns tt;
     w_readlines := w_readlines demo_world;
     w_read_csv := fun _ => Returns bad_frame;
     w_config_read := fun _ => Returns demo_sections;
     w_to_datetime :=
       fun _ => Raises (ValueError (str "day is out of range for month"));
     w_to_parquet := sink_checks |}.

(** A file whose date column holds something else than dates. *)
Definition text_frame : DataFrame :=
  {| df_rows := 1;
     df_cols := [(str "summary_date",
                  {| s_dtype := str "object"; s_values := [CStr (str "n/a")] |})] |}.

(** A configuration file without [aws_s3_data]. *)
Definition missing_key_world : World :=
  {| w_unicode := ascii_only;
     w_isdir := w_isdir demo_world;
     w_listdir := demo_listdir;
     w_open := fun _ => Returns tt;
     w_readlines := w_readlines demo_world;
     w_read_csv := fun _ => Returns demo_frame;
     w_config_read :=
       fun _ => Returns [(str "AWS", [(str "aws_database", Returns (str "oura"))])];
     w_to_datetime := demo_to_datetime;
     w_to_parquet := sink_checks |}.

Definition demo_config : Config :=
  {| whitelist_tables := [str "sleep"; str "activity"];
     aws := {| aws_database := str "oura"; aws_s3_data := str "s3://bucket/data" |} |}.

(** ** The rest of the script *)

(** The block [if enableTyper:] of [ingestData], on the value of [data]
    when the block is reached. *)
Definition typer_block (W : World) (enableTyper : bool) (tablename : pystr)
           (data : pyobj) : M pyobj :=
  if enableTyper then
    data <-
      (if pystr_eqb tablename (str "activity") || pystr_eqb tablename (str "sleep")
       then
         c <- lift (obj_getitem data (str "summary_date")) ;;
         example <- lift (sampleEntry c) ;;
         smartTyper W example data (str "summary_date") true
       else ret data) ;;
    (if pystr_eqb tablename (str "sleep_periods") then
       c <- lift (obj_getitem data (str "day")) ;;
       example <- lift (sampleEntry c) ;;
       smartTyper W example data (str "day") true
     else ret data)
  else ret data.

(** The body of the loop of [showDataTypes]; how a sampled value prints in
    the f-string ([str] of a number, of a time stamp, of [None]) is left to
    [fmt]. *)
Definition showDataTypes_column (fmt : cell -> pystr) (data : DataFrame)
           (c : pystr) : M unit :=
  col <- lift (df_getitem data c) ;;
  sample <- lift (sampleEntry (ColSeries col)) ;;
  col' <- lift (df_getitem data c) ;;
  print (c ++ str " --> " ++ s_dtype col' ++ str " --> " ++ fmt sample).

Definition showDataTypes (fmt : cell -> pystr) (data : DataFrame) : M unit :=
  let columns := map fst (df_cols data) in
  for_each (showDataTypes_column fmt data) columns ;;
  print [].

(** The line [showDataTypes] prints for a column. *)
Definition type_line (fmt : cell -> pystr) (c : pystr * Series) : event :=
  EvPrint (fst c ++ str " --> " ++ s_dtype (snd c) ++ str " --> "
             ++ fmt (hd CNone (s_values (snd c)))).

(** The column [data['pid'] = pid] adds. *)
Definition pid_column (pid : pystr) (rows : nat) : Series :=
  {| s_dtype := dtype_object; s_values := repeat (CStr pid) rows |}.

Definition is_dispatched (tablename : pystr) : bool :=
  match dispatch tablename with Some _ => true | None => false end.

(** The characters of a table name once normalized. *)
Definition name_char (c : N) : bool := ascii_alnum c || N.eqb c ch_underscore.

(** What a run of [looper] on [dirpath] may do, event by event: test the
    entries of [dirpath], list [dirpath] and its active directories, open
    and read the matched, whitelisted files of those, and call the sink for
    such a file with the arguments [ingestData] builds. *)
Definition run_event_ok (W : World) (dirpath : pystr) (config : Config)
           (e : event) : Prop :=
  let U := w_unicode W in
  match e with
  | EvPrint _ => True
  | EvIsDir p => exists d, p = path_join dirpath d
  | EvListDir p =>
      p = dirpath
      \/ exists d, p = path_join dirpath d /\ classifyDirectory U d = Active
  | EvOpen p | EvReadCsv p =>
      exists d f pid raw,
        p = path_join (path_join dirpath d) f
        /\ classifyDirectory U d = Active
        /\ classifyFile U f = Matched pid raw
        /\ str_in (normalize raw) (whitelist_tables config) = true
  | EvReadLines _ | EvConfigRead _ => False
  | EvToParquet a =>
      exists raw,
        run table_char raw
        /\ sa_table a = normalize raw
        /\ str_in (sa_table a) (whitelist_tables config) = true
        /\ table_path (aws_s3_data (aws config)) (sa_table a) = Returns (sa_path a)
        /\ sa_database a = aws_database (aws config)
        /\ sa_partition_cols a = [str "pid"]
        /\ sa_dataset a = true
  end.

(** A top-level entry that is a plain file named like an active directory,
    and a data file that cannot be parsed. *)
Definition stray_world : World :=
  {| w_unicode := ascii_only;
     w_isdir := fun p => negb (pystr_eqb p (str "root/PPID 003 Data"));
     w_listdir :=
       fun p =>
         if pystr_eqb p (str "root") then
           Returns [str "PPID 001 Data"; str "PPID 003 Data"; str "PPID 004 Data"]
         else if pystr_eqb p (str "root/PPID 001 Data") then
           Returns [str "a_b_001_heart.csv"; str "a_b_001_sleep.csv";
                    str "a_b_001_activity.csv"]
         else Raises (OSError p);
     w_open := fun _ => Returns tt;
     w_readlines := w_readlines demo_world;
     w_read_csv :=
       fun p =>
         if pystr_eqb p (str "root/PPID 001 Data/a_b_001_sleep.csv")
         then Raises (OtherException (str "EmptyDataError"))
         else Returns demo_frame;
     w_config_read := fun _ => Returns demo_sections;
     w_to_datetime := demo_to_datetime;
     w_to_parquet := sink_checks |}.

(** A frame with the header only. *)
Definition empty_frame : DataFrame :=
  {| df_rows := 0;
     df_cols := [(str "summary_date", {| s_dtype := str "object"; s_values := [] |})] |}.

(** A frame without the column of dates. *)
Definition scores_frame : DataFrame :=
  {| df_rows := 2;
     df_cols := [(str "score", {| s_dtype := str "int64";
                                  s_values := [CInt 81%Z; CInt 77%Z] |})] |}.

(** A frame of two columns of text and two rows. *)
Definition notes_frame : DataFrame :=
  {| df_rows := 2;
     df_cols := [(str "day", {| s_dtype := str "object";
                                s_values := [CStr (str "2024-01-15");
                                             CStr (str "2024-01-16")] |});
                 (str "note", {| s_dtype := str "object";
                                 s_values := [CStr (str "rested");
                                              CStr (str "late")] |})] |}.

(** The element at position 0 of a column, whatever its index says. *)
Definition position0 (c : column) : option cell :=
  match c with
  | ColSeries s | ColIndexed _ s => hd_error (s_values s)
  | ColOpaque _ => None
  end.

(** The column of dates of [demo_frame] under other indexes: the rows
    labelled 1 and 0, in that order, and the rows labelled 1 and 2. *)
Definition swapped_dates : column := ColIndexed [1%Z; 0%Z] demo_dates.

Definition shifted_dates : column := ColIndexed [1%Z; 2%Z] demo_dates.

(** A string that neither starts nor ends with white space, and is not
    empty. *)
Definition trimmed (U : unicode) (s : pystr) : Prop :=
  match s with
  | [] => False
  | c :: _ => py_isspace U c = false /\ py_isspace U (last s c) = false
  end.

Definition startup_events : trace :=
  [EvOpen whitelist_file; EvReadLines whitelist_file; EvConfigRead config_file].

(** A run where the whitelist holds [activity] only. *)
Definition activity_config : Config :=
  {| whitelist_tables := [str "activity"];
     aws := {| aws_database := str "oura"; aws_s3_data := str "s3://bucket/data" |} |}.

(** A run without [whitelist.txt], and one without [config.cfg]. *)
Definition no_whitelist_world : World :=
  {| w_unicode := ascii_only;
     w_isdir := w_isdir demo_world;
     w_listdir := demo_listdir;
     w_open := fun p => Raises (OSError p);
     w_readlines := fun p => Raises (OSError p);
     w_read_csv := fun _ => Returns demo_frame;
     w_config_read := fun _ => Returns demo_sections;
     w_to_datetime := demo_to_datetime;
     w_to_parquet := sink_checks |}.

Definition no_section_world : World :=
  {| w_unicode := ascii_only;
     w_isdir := w_isdir demo_world;
     w_listdir := demo_listdir;
     w_open := fun _ => Returns tt;
     w_readlines := w_readlines demo_world;
     w_read_csv := fun _ => Returns demo_frame;
     w_config_read := fun _ => Returns [];
     w_to_datetime := demo_to_datetime;
     w_to_parquet := sink_checks |}.

(** How the demonstrations print a sampled value. *)
Definition demo_fmt (c : cell) : pystr :=
  match c with
  | CStr s => s
  | CNone => str "None"
  | _ => str "?"
  end.

(** A word character other than the underscore: what a tag is made of. *)
Definition seg_char (U : unicode) (c : N) : bool :=
  re_word U c && negb (N.eqb c ch_underscore).

(** The file pattern after its first, second and third group. *)
Definition file_tail3 : regex :=
  Chr ch_underscore +++ Grp 4 (PlusCls table_char) +++ lit (str ".csv") +++ Eol.

Definition file_tail2 (U : unicode) : regex :=
  Chr ch_underscore +++ Grp 3 (PlusCls (re_word U)) +++ file_tail3.

Definition file_tail1 (U : unicode) : regex :=
  Chr ch_underscore +++ Grp 2 (PlusCls (re_word U)) +++ file_tail2 U.

(** * Properties *)

(** ** The matcher against the denotation *)

Section RegexTheory.

Variable U : unicode.

Lemma lastc_nil prev : lastc prev [] = prev.
Proof. reflexivity. Qed.

Lemma lastc_snoc prev s a : lastc prev (s ++ [a]) = Some a.
Proof. unfold lastc. rewrite rev_app_distr. reflexivity. Qed.

Lemma lastc_cons prev a s : lastc prev (a :: s) = lastc (Some a) s.
Proof.
  destruct s as [|b s] using rev_ind; [reflexivity|].
  change (a :: s ++ [b]) with ((a :: s) ++ [b]).
  now rewrite !lastc_snoc.
Qed.

Lemma lastc_app prev s1 s2 : lastc prev (s1 ++ s2) = lastc (lastc prev s1) s2.
Proof.
  destruct s2 as [|b s2] using rev_ind.
  - now rewrite app_nil_r.
  - now rewrite app_assoc, !lastc_snoc.
Qed.

Lemma firstn_app_len (s1 s2 : pystr) :
  firstn (List.length (s1 ++ s2) - List.length s2) (s1 ++ s2) = s1.
Proof.
  rewrite length_app, Nat.add_sub.
  rewrite firstn_app, Nat.sub_diag, firstn_all. simpl. apply app_nil_r.
Qed.

Lemma star_cls_sound R p : forall s prev (k : option N -> pystr -> option R) x,
  star_cls p prev s k = Some x ->
  exists s1 s2, s = s1 ++ s2 /\ forallb p s1 = true /\ k (lastc prev s1) s2 = Some x.
Proof.
  induction s as [|a s IH]; intros prev k x H; simpl in H.
  - exists [], []. auto.
  - destruct (p a) eqn:Hp.
    + destruct (star_cls p (Some a) s k) eqn:Hs.
      * inversion H; subst. destruct (IH _ _ _ Hs) as (s1 & s2 & -> & Hall & Hk).
        exists (a :: s1), s2. simpl. rewrite Hp, Hall, lastc_cons. auto.
      * exists [], (a :: s). auto.
    + exists [], (a :: s). auto.
Qed.

Lemma star_cls_complete R p : forall s1 s2 prev (k : option N -> pystr -> option R),
  forallb p s1 = true -> k (lastc prev s1) s2 <> None ->
  star_cls p prev (s1 ++ s2) k <> None.
Proof.
  induction s1 as [|a s1 IH]; intros s2 prev k Hall Hk.
  - simpl in *. destruct s2 as [|b s2]; simpl; [exact Hk|].
    destruct (p b); [|exact Hk].
    destruct (star_cls p (Some b) s2 k); [discriminate|exact Hk].
  - simpl in Hall. apply andb_prop in Hall as [Hp Hall]. simpl. rewrite Hp.
    rewrite lastc_cons in Hk. specialize (IH s2 (Some a) k Hall Hk).
    destruct (star_cls p (Some a) (s1 ++ s2) k); [discriminate|contradiction].
Qed.

Theorem rmatch_sound R r : forall prev s c (k : cont R) x,
  rmatch U r prev s c k = Some x ->
  exists s1 s2 c', s = s1 ++ s2 /\ Matches U r prev s1 s2 c c'
                   /\ k (lastc prev s1) s2 c' = Some x.
Proof.
  induction r; intros prev s c0 k x H; simpl in H.
  - exists [], s, c0. repeat split; [constructor|exact H].
  - destruct s as [|a s]; [discriminate|].
    destruct (N.eqb a c) eqn:E; [|discriminate].
    apply N.eqb_eq in E; subst. exists [c], s, c0. repeat split; [constructor|exact H].
  - destruct s as [|a s]; [discriminate|].
    destruct (p a) eqn:E; [|discriminate].
    exists [a], s, c0. repeat split; [now constructor|exact H].
  - apply IHr1 in H as (s1 & s2 & c1 & -> & M1 & H).
    apply IHr2 in H as (s1' & s3 & c2 & -> & M2 & H).
    exists (s1 ++ s1'), s3, c2. rewrite lastc_app, app_assoc.
    repeat split; [econstructor; eauto|exact H].
  - destruct (rmatch U r1 prev s c0 k) eqn:E.
    + inversion H; subst. apply IHr1 in E as (s1 & s2 & c1 & -> & M1 & E).
      exists s1, s2, c1. repeat split; [now apply MAltL|exact E].
    + apply IHr2 in H as (s1 & s2 & c1 & -> & M1 & E').
      exists s1, s2, c1. repeat split; [now apply MAltR|exact E'].
  - destruct s as [|a s]; [discriminate|].
    destruct (p a) eqn:E; [|discriminate].
    apply star_cls_sound in H as (s1 & s2 & -> & Hall & H).
    exists (a :: s1), s2, c0. rewrite lastc_cons.
    repeat split; [now constructor|exact H].
  - apply IHr in H as (s1 & s2 & c1 & -> & M1 & H).
    rewrite firstn_app_len in H.
    exists s1, s2, (setcap n s1 c1). repeat split; [now constructor|exact H].
  - destruct prev; [discriminate|].
    exists [], s, c0. repeat split; [constructor|exact H].
  - destruct (at_eol s) eqn:E; [|discriminate].
    exists [], s, c0. repeat split; [now constructor|exact H].
  - destruct (xorb (word_at U prev) (word_at U (hd_error s))) eqn:E; [|discriminate].
    exists [], s, c0. repeat split; [now constructor|exact H].
Qed.

Theorem rmatch_complete R r prev s1 s2 c c' :
  Matches U r prev s1 s2 c c' ->
  forall k : cont R, k (lastc prev s1) s2 c' <> None ->
                     rmatch U r prev (s1 ++ s2) c k <> None.
Proof.
  induction 1; intros k Hk; simpl.
  - exact Hk.
  - now rewrite N.eqb_refl.
  - now rewrite H.
  - rewrite <- app_assoc. apply IHMatches1. apply IHMatches2.
    now rewrite <- lastc_app.
  - specialize (IHMatches k Hk).
    destruct (rmatch U r1 prev (s1 ++ s2) c k); [discriminate|contradiction].
  - destruct (rmatch U r1 prev (s1 ++ s2) c k); [discriminate|].
    now apply IHMatches.
  - rewrite H. apply star_cls_complete; [assumption|].
    rewrite lastc_cons in Hk. exact Hk.
  - apply IHMatches. now rewrite firstn_app_len.
  - exact Hk.
  - now rewrite H.
  - now rewrite H.
Qed.

(** [re.match] succeeds exactly on the subjects a prefix of which the
    pattern denotes. *)
Corollary is_match_iff r s :
  is_match U r s = true <->
  exists s1 s2 c, s = s1 ++ s2 /\ Matches U r None s1 s2 [] c.
Proof.
  unfold is_match, re_match. split.
  - destruct (rmatch U r None s [] (fun _ _ c => Some c)) eqn:E; [|discriminate].
    intros _. apply rmatch_sound in E as (s1 & s2 & c' & -> & HM & _). eauto.
  - intros (s1 & s2 & c & -> & HM).
    pose proof (rmatch_complete HM (fun _ _ c => Some c)) as H.
    destruct (rmatch U r None (s1 ++ s2) [] (fun _ _ c => Some c)); [reflexivity|].
    exfalso. apply H; [discriminate|reflexivity].
Qed.

Corollary re_match_some r s c :
  re_match U r s = Some c ->
  exists s1 s2, s = s1 ++ s2 /\ Matches U r None s1 s2 [] c.
Proof.
  unfold re_match. intros E.
  apply rmatch_sound in E as (s1 & s2 & c' & -> & HM & E). inversion E; subst. eauto.
Qed.

End RegexTheory.

Section Patterns.

Variable U : unicode.

Lemma Matches_lit_intro l : forall prev s2 c, Matches U (lit l) prev l s2 c c.
Proof.
  induction l as [|a l IH]; intros; simpl; [constructor|].
  change (a :: l) with ([a] ++ l). econstructor; [constructor|apply IH].
Qed.

Lemma Matches_lit_inv l : forall prev s1 s2 c c',
  Matches U (lit l) prev s1 s2 c c' -> s1 = l /\ c' = c.
Proof.
  induction l as [|a l IH]; intros prev s1 s2 c c' H; simpl in H.
  - inversion H; auto.
  - inversion H; subst. match goal with H1 : Matches _ (Chr _) _ _ _ _ _ |- _ =>
      inversion H1; subst end.
    match goal with H2 : Matches _ (lit _) _ _ _ _ _ |- _ =>
      apply IH in H2 as [-> ->] end. auto.
Qed.

Lemma Matches_plus_inv p prev s1 s2 c c' :
  Matches U (PlusCls p) prev s1 s2 c c' -> run p s1 /\ c' = c.
Proof.
  inversion 1 as [ | | | | | | p0 a s1' prev0 s20 c0 Ha Hall | | | | ]; subst.
  split; [|reflexivity]. split; [discriminate|].
  simpl. now rewrite Ha, Hall.
Qed.

Lemma Matches_plus_intro p prev s1 s2 c :
  run p s1 -> Matches U (PlusCls p) prev s1 s2 c c.
Proof.
  intros [Hne Hall]. destruct s1 as [|a s1]; [contradiction|].
  simpl in Hall. apply andb_prop in Hall as [Ha Hall]. now constructor.
Qed.

Lemma at_eol_cases s : at_eol s = true <-> s = [] \/ s = [ch_newline].
Proof.
  split.
  - destruct s as [|a [|b s]]; simpl; auto; [|discriminate].
    intros H. apply N.eqb_eq in H. subst. auto.
  - intros [-> | ->]; reflexivity.
Qed.

Lemma Matches_seq_inv r1 r2 prev s s2 c c2 :
  Matches U (r1 +++ r2) prev s s2 c c2 ->
  exists s1 s1' c1, s = s1 ++ s1' /\ Matches U r1 prev s1 (s1' ++ s2) c c1
                    /\ Matches U r2 (lastc prev s1) s1' s2 c1 c2.
Proof. inversion 1; subst. eauto 7. Qed.

Lemma Matches_grp_inv n r prev s1 s2 c c' :
  Matches U (Grp n r) prev s1 s2 c c' ->
  exists c1, Matches U r prev s1 s2 c c1 /\ c' = setcap n s1 c1.
Proof. inversion 1; subst. eauto. Qed.

Lemma Matches_chr_inv x prev s1 s2 c c' :
  Matches U (Chr x) prev s1 s2 c c' -> s1 = [x] /\ c' = c.
Proof. inversion 1; subst. auto. Qed.

Lemma Matches_cls_inv p prev s1 s2 c c' :
  Matches U (Cls p) prev s1 s2 c c' -> exists a, s1 = [a] /\ p a = true /\ c' = c.
Proof. inversion 1; subst. eauto. Qed.

Lemma Matches_alt_inv r1 r2 prev s1 s2 c c' :
  Matches U (Alt r1 r2) prev s1 s2 c c' ->
  Matches U r1 prev s1 s2 c c' \/ Matches U r2 prev s1 s2 c c'.
Proof. inversion 1; subst; auto. Qed.

Lemma Matches_bol_inv prev s1 s2 c c' :
  Matches U Bol prev s1 s2 c c' -> prev = None /\ s1 = [] /\ c' = c.
Proof. inversion 1; subst. auto. Qed.

Lemma Matches_eol_inv prev s1 s2 c c' :
  Matches U Eol prev s1 s2 c c' ->
  s1 = [] /\ c' = c /\ (s2 = [] \/ s2 = [ch_newline]).
Proof. inversion 1; subst. rewrite <- at_eol_cases. auto. Qed.

Lemma Matches_wordb_inv prev s1 s2 c c' :
  Matches U Wordb prev s1 s2 c c' ->
  s1 = [] /\ c' = c /\ xorb (word_at U prev) (word_at U (hd_error s2)) = true.
Proof. inversion 1; subst. auto. Qed.

(** Take a derivation apart, constructor by constructor. *)
Ltac minv :=
  repeat match goal with
    | H : Matches _ (Seq _ _) _ _ _ _ _ |- _ =>
        apply Matches_seq_inv in H as (? & ? & ? & -> & ? & ?)
    | H : Matches _ (Grp _ _) _ _ _ _ _ |- _ =>
        apply Matches_grp_inv in H as (? & ? & ->)
    | H : Matches _ (lit _) _ _ _ _ _ |- _ =>
        apply Matches_lit_inv in H as [-> ->]
    | H : Matches _ (Chr _) _ _ _ _ _ |- _ =>
        apply Matches_chr_inv in H as [-> ->]
    | H : Matches _ (PlusCls _) _ _ _ _ _ |- _ =>
        apply Matches_plus_inv in H as [? ->]
    | H : Matches _ Bol _ _ _ _ _ |- _ =>
        apply Matches_bol_inv in H as (_ & -> & ->)
    | H : Matches _ Eol _ _ _ _ _ |- _ =>
        apply Matches_eol_inv in H as (-> & -> & ?)
    end.

(** *** Directory names *)

Lemma dir_pattern_iff suffix name :
  is_match U (dir_pattern suffix) name = true <-> dir_shape suffix name.
Proof.
  rewrite is_match_iff. unfold dir_pattern. split.
  - intros (s1 & s2 & c & -> & H). minv.
    eexists; split; [eassumption|].
    match goal with H : _ \/ _ |- _ => destruct H as [-> | ->] end;
      [left | right]; simpl; now rewrite <- ?app_assoc, ?app_nil_r.
  - intros (ds & Hrun & Hname).
    assert (HM : forall s2, at_eol s2 = true ->
               Matches U (Bol +++ lit (str "PPID ") +++ PlusCls ascii_digit
                            +++ lit suffix +++ Eol)
                       None ([] ++ str "PPID " ++ ds ++ suffix ++ []) s2 [] []).
    { intros s2 Hs2. econstructor; [constructor|].
      econstructor; [apply Matches_lit_intro|].
      econstructor; [now apply Matches_plus_intro|].
      econstructor; [apply Matches_lit_intro|now constructor]. }
    destruct Hname as [-> | ->].
    + exists ([] ++ str "PPID " ++ ds ++ suffix ++ []), [], [].
      split; [now rewrite !app_nil_r|now apply HM].
    + exists ([] ++ str "PPID " ++ ds ++ suffix ++ []), [ch_newline], [].
      split; [|now apply HM]. simpl. now rewrite <- !app_assoc.
Qed.

(** *** File names *)

Lemma file_name_sound name c :
  re_match U (file_name U) name = Some c ->
  file_shape U name (group 3 c) (group 4 c).
Proof.
  intros H. apply re_match_some in H as (s1 & s2 & -> & H).
  unfold file_name in H. minv. unfold file_shape, file_body. simpl.
  match goal with H : _ \/ _ |- _ => destruct H as [-> | ->] end;
    rewrite <- ?app_assoc, ?app_nil_r; simpl.
  - refine (ex_intro _ _ (ex_intro _ _ (conj _ (conj _ (conj _ (conj _ _)))))).
    5: left; reflexivity. all: eassumption.
  - refine (ex_intro _ _ (ex_intro _ _ (conj _ (conj _ (conj _ (conj _ _)))))).
    5: right; repeat (rewrite <- app_assoc; simpl); reflexivity. all: eassumption.
Qed.

Lemma file_name_complete name pid raw :
  file_shape U name pid raw -> re_match U (file_name U) name <> None.
Proof.
  intros (g1 & g2 & H1 & H2 & H3 & H4 & Hname).
  assert (HM : forall s2, at_eol s2 = true ->
    exists c, Matches U (file_name U) None
      ([] ++ g1 ++ [ch_underscore] ++ g2 ++ [ch_underscore] ++ pid
          ++ [ch_underscore] ++ raw ++ str ".csv" ++ []) s2 [] c).
  { intros s2 Hs2. eexists. unfold file_name.
    econstructor; [constructor|].
    econstructor; [constructor; now apply Matches_plus_intro|].
    econstructor; [constructor|].
    econstructor; [constructor; now apply Matches_plus_intro|].
    econstructor; [constructor|].
    econstructor; [constructor; now apply Matches_plus_intro|].
    econstructor; [constructor|].
    econstructor; [constructor; now apply Matches_plus_intro|].
    econstructor; [apply Matches_lit_intro|now constructor]. }
  assert (E : is_match U (file_name U) name = true).
  { apply is_match_iff. unfold file_body in Hname. destruct Hname as [-> | ->].
    - destruct (HM [] eq_refl) as [c Hc]. eexists _, [], c. split; [|exact Hc].
      simpl. now rewrite !app_nil_r.
    - destruct (HM [ch_newline] eq_refl) as [c Hc]. eexists _, [ch_newline], c.
      split; [|exact Hc]. simpl. now rewrite <- !app_assoc. }
  unfold is_match in E. destruct (re_match U (file_name U) name); [discriminate|].
  discriminate.
Qed.

(** *** Segments between underscores *)

Lemma split_on_nonempty sep s : split_on sep s <> [].
Proof.
  destruct s as [|c s]; simpl; [discriminate|].
  destruct (N.eqb c sep); [discriminate|].
  destruct (split_on sep s); discriminate.
Qed.

Lemma join_split_on sep s : join sep (split_on sep s) = s.
Proof.
  induction s as [|c s IH]; [reflexivity|]. simpl.
  destruct (N.eqb c sep) eqn:E.
  - apply N.eqb_eq in E. subst c. simpl.
    destruct (split_on sep s) eqn:Es; [now apply split_on_nonempty in Es|].
    now rewrite IH.
  - destruct (split_on sep s) as [|w ws] eqn:Es; [now apply split_on_nonempty in Es|].
    destruct ws; simpl in *; now rewrite <- IH.
Qed.

Lemma split_on_length sep s : List.length (split_on sep s) = S (count sep s).
Proof.
  induction s as [|c s IH]; [reflexivity|]. simpl.
  destruct (N.eqb c sep); simpl; [now rewrite IH|].
  destruct (split_on sep s); simpl in *; [discriminate|exact IH].
Qed.

Lemma count_app sep a b : count sep (a ++ b) = count sep a + count sep b.
Proof. induction a as [|c a IH]; simpl; [reflexivity|]. rewrite IH. lia. Qed.

Lemma split_on_whole sep a : count sep a = 0 -> split_on sep a = [a].
Proof.
  induction a as [|c a IH]; [reflexivity|]. simpl.
  destruct (N.eqb c sep); [discriminate|]. intros H. now rewrite IH.
Qed.

Lemma split_on_first sep a b :
  count sep a = 0 -> split_on sep (a ++ sep :: b) = a :: split_on sep b.
Proof.
  induction a as [|c a IH]; simpl.
  - now rewrite N.eqb_refl.
  - destruct (N.eqb c sep); [discriminate|]. intros H. now rewrite IH.
Qed.

Lemma ascii_alnum_word c : ascii_alnum c = true -> re_word U c = true.
Proof.
  unfold re_word, ascii_alnum, ascii_digit, ascii_alpha, in_range. intros H.
  assert (Hlt : N.ltb c 128 = true).
  { apply N.ltb_lt.
    repeat match goal with
      | H : (_ || _)%bool = true |- _ => apply orb_prop in H as [H | H]
      | H : (_ && _)%bool = true |- _ => apply andb_prop in H as [? H]
      | H : N.leb _ _ = true |- _ => apply N.leb_le in H
      end; lia. }
  now rewrite Hlt, H.
Qed.

Lemma run_weaken (p q : N -> bool) s :
  (forall c, p c = true -> q c = true) -> run p s -> run q s.
Proof.
  intros Hpq [Hne Hall]. split; [exact Hne|].
  rewrite forallb_forall in *. auto.
Qed.

(** A name of four segments has one reading only. *)
Lemma file_shape_unique name t1 t2 t3 t4 pid raw :
  split_on ch_underscore name = [t1; t2; t3; t4 ++ str ".csv"] ->
  file_shape U name pid raw -> pid = t3 /\ raw = t4.
Proof.
  intros Hsplit (g1 & g2 & _ & _ & _ & _ & Hname).
  assert (Hcount : count ch_underscore name = 3).
  { pose proof (split_on_length ch_underscore name) as HL.
    rewrite Hsplit in HL. simpl in HL. lia. }
  assert (Hform : exists nl, (nl = [] \/ nl = [ch_newline]) /\
            name = g1 ++ ch_underscore :: g2 ++ ch_underscore :: pid
                      ++ ch_underscore :: raw ++ str ".csv" ++ nl).
  { unfold file_body in Hname. destruct Hname as [-> | ->].
    - exists []. split; [auto|]. reflexivity.
    - exists [ch_newline]. split; [auto|]. simpl.
      repeat (rewrite <- app_assoc; simpl). reflexivity. }
  destruct Hform as (nl & Hnl & ->).
  assert (Hz : count ch_underscore g1 = 0 /\ count ch_underscore g2 = 0
               /\ count ch_underscore pid = 0).
  { revert Hcount. rewrite count_app. simpl. rewrite count_app. simpl.
    rewrite count_app. simpl. lia. }
  destruct Hz as (Z1 & Z2 & Z3).
  rewrite (@split_on_first _ _ _ Z1), (@split_on_first _ _ _ Z2),
    (@split_on_first _ _ _ Z3) in Hsplit.
  inversion Hsplit as [[E1 E2 E3 E4]]. split; [reflexivity|].
  assert (Hlast : split_on ch_underscore (raw ++ str ".csv" ++ nl)
                  = [t4 ++ str ".csv"]) by congruence.
  pose proof (join_split_on ch_underscore (raw ++ str ".csv" ++ nl)) as HJ.
  rewrite Hlast in HJ. simpl in HJ.
  destruct Hnl as [-> | ->].
  - change (t4 ++ str ".csv" = raw ++ str ".csv") in HJ. symmetry in HJ.
    now apply app_inv_tail in HJ.
  - exfalso.
    change (t4 ++ str ".cs" ++ [118%N] = raw ++ str ".csv" ++ [10%N]) in HJ.
    rewrite !app_assoc in HJ. apply app_inj_tail in HJ as [_ HJ]. discriminate.
Qed.

Lemma grammar4_file_shape name t1 t2 t3 t4 :
  grammar4 name t1 t2 t3 t4 -> file_shape U name t3 t4.
Proof.
  intros (Hsplit & R1 & R2 & R3 & R4).
  exists t1, t2.
  split; [eapply run_weaken; [apply ascii_alnum_word|exact R1]|].
  split; [eapply run_weaken; [apply ascii_alnum_word|exact R2]|].
  split; [eapply run_weaken; [apply ascii_alnum_word|exact R3]|].
  split; [exact R4|].
  left. rewrite <- (join_split_on ch_underscore name), Hsplit. reflexivity.
Qed.

(** *** Dates *)

Lemma re_digit_word c : re_digit U c = true -> re_word U c = true.
Proof.
  unfold re_digit, re_word, ascii_alnum. destruct (N.ltb c 128); intros ->; reflexivity.
Qed.

Lemma in_range_digit_word lo hi c :
  N.leb 48 lo = true -> N.leb hi 57 = true ->
  in_range lo hi c = true -> re_word U c = true.
Proof.
  intros Hlo Hhi H. apply ascii_alnum_word.
  unfold ascii_alnum, ascii_digit, in_range in *.
  apply andb_prop in H as [H1 H2].
  apply N.leb_le in Hlo, Hhi, H1, H2.
  apply orb_true_intro. left. apply andb_true_intro.
  split; apply N.leb_le; lia.
Qed.

Ltac minv_date :=
  repeat match goal with
    | H : Matches _ (Seq _ _) _ _ _ _ _ |- _ =>
        apply Matches_seq_inv in H as (? & ? & ? & -> & ? & ?)
    | H : Matches _ (Grp _ _) _ _ _ _ _ |- _ =>
        apply Matches_grp_inv in H as (? & ? & ->)
    | H : Matches _ (Chr _) _ _ _ _ _ |- _ =>
        apply Matches_chr_inv in H as [-> ->]
    | H : Matches _ (Cls _) _ _ _ _ _ |- _ =>
        apply Matches_cls_inv in H as (? & -> & ? & ->)
    | H : Matches _ (Alt _ _) _ _ _ _ _ |- _ =>
        apply Matches_alt_inv in H as [H | H]
    | H : Matches _ Wordb _ _ _ _ _ |- _ =>
        apply Matches_wordb_inv in H as (-> & -> & ?)
    end.

Ltac mk_date :=
  lazymatch goal with
  | |- Matches _ (Seq _ _) _ _ _ _ _ => eapply MSeq; [mk_date | mk_date]
  | |- Matches _ (Grp _ _) _ _ _ _ _ => eapply MGrp; mk_date
  | |- Matches _ (Alt _ _) _ _ _ _ _ =>
      first [ solve [eapply MAltL; mk_date] | eapply MAltR; mk_date ]
  | |- Matches _ (Chr _) _ _ _ _ _ => eapply MChr
  | |- Matches _ (Cls _) _ _ _ _ _ => eapply MCls; assumption
  | |- Matches _ Wordb _ _ _ _ _ => eapply MWordb
  end.

Lemma date_exp_sound s : is_match U (date_exp U) s = true -> date_shape U s.
Proof.
  rewrite is_match_iff. intros (s1 & s2 & c & -> & H).
  unfold date_exp in H. minv_date; simpl;
    (do 9 eexists; split; [reflexivity|]);
    repeat (split; [assumption|]).
  all: unfold month_ok, day_ok;
    repeat match goal with
      | H : in_range _ _ _ = true |- _ => rewrite H
      end;
    repeat (split; [reflexivity|]).
  all: match goal with
    | H : xorb (word_at U (lastc _ ([_] ++ [?d]))) (word_at U (hd_error ?r)) = true,
      Hd : in_range _ _ ?d = true |- word_at U (hd_error ?r) = false =>
        assert (Hw : re_word U d = true)
          by (eapply in_range_digit_word; [ | | exact Hd]; reflexivity);
        rewrite lastc_snoc in H; change (word_at U (Some d)) with (re_word U d) in H;
        rewrite Hw in H;
        destruct (word_at U (hd_error r)); [discriminate|reflexivity]
    end.
Qed.

Lemma date_exp_complete s : date_shape U s -> is_match U (date_exp U) s = true.
Proof.
  intros (y1 & y2 & y3 & y4 & m1 & m2 & d1 & d2 & rest & -> & Y1 & Y2 & Y3 & Y4
          & Hm & Hd & Hrest).
  apply is_match_iff.
  exists ([] ++ ([y1] ++ [y2] ++ [y3] ++ [y4]) ++ [ch_hyphen] ++ ([m1] ++ [m2])
             ++ [ch_hyphen] ++ ([d1] ++ [d2]) ++ []), rest.
  assert (Hd2 : re_word U d2 = true).
  { unfold day_ok in Hd.
    repeat match goal with
      | H : (_ || _)%bool = true |- _ => apply orb_prop in H as [H | H]
      | H : (_ && _)%bool = true |- _ => apply andb_prop in H as [_ H]
      end; eapply in_range_digit_word; try exact Hd; reflexivity. }
  unfold month_ok, day_ok in Hm, Hd.
  repeat match goal with
    | H : (_ || _)%bool = true |- _ => apply orb_prop in H as [H | H]
    | H : (_ && _)%bool = true |- _ => apply andb_prop in H as [? H]
    | H : N.eqb _ _ = true |- _ => apply N.eqb_eq in H; subst
    end;
    (eexists; split; [reflexivity|]); unfold date_exp; mk_date.
  all: pose proof (@re_digit_word _ Y1) as Hy1;
    rewrite ?lastc_snoc; cbn [app hd_error word_at lastc rev];
    rewrite ?Hd2, ?Hrest, ?Hy1; reflexivity.
Qed.

Lemma date_exp_iff s : is_match U (date_exp U) s = true <-> date_shape U s.
Proof. split; [apply date_exp_sound|apply date_exp_complete]. Qed.


End Patterns.

(** ** Strings and tables *)

Lemma pystr_eqb_eq a : forall b, pystr_eqb a b = true <-> a = b.
Proof.
  induction a as [|x a IH]; destruct b as [|y b]; simpl; split; try easy.
  - intros H. apply andb_prop in H as [H1 H2].
    apply N.eqb_eq in H1. apply IH in H2. congruence.
  - intros [= -> ->]. rewrite N.eqb_refl. now apply IH.
Qed.

Lemma pystr_eqb_refl a : pystr_eqb a a = true.
Proof. now apply pystr_eqb_eq. Qed.

Lemma assoc_set_other A k k' (v : A) l :
  pystr_eqb k' k = false -> assoc k (assoc_set k' v l) = assoc k l.
Proof.
  intros Hk. induction l as [|[x w] l IH]; simpl.
  - now rewrite Hk.
  - destruct (pystr_eqb x k') eqn:E; simpl.
    + apply pystr_eqb_eq in E. subst x. now rewrite Hk.
    + now rewrite IH.
Qed.

Lemma normalize_map x :
  normalize x =
  map (fun c => if N.eqb c ch_space || N.eqb c ch_hyphen then ch_underscore else c) x.
Proof.
  unfold normalize, replace. rewrite map_map. apply map_ext. intros c.
  destruct (N.eqb c ch_space) eqn:E1; [reflexivity|].
  destruct (N.eqb c ch_hyphen); reflexivity.
Qed.

(** C6: the table name is the raw name with every space and every hyphen
    replaced by an underscore and nothing else changed (same length, every
    other character kept, so case is kept); doing it twice changes nothing
    more; "sleep periods" and "sleep-periods" both give "sleep_periods".
    This is the name the script works with: for a file whose name is
    matched, [participantIngest] looks up the normalized fourth group in
    the whitelist and hands the normalized name to [ingestData]; nothing
    else of the raw name is used. *)
Theorem normalize_spec (W : World) (subdir : pystr) (config : Config)
        (file x : pystr) :
  normalize (normalize x) = normalize x
  /\ normalize x =
     map (fun c => if N.eqb c ch_space || N.eqb c ch_hyphen then ch_underscore else c) x
  /\ List.length (normalize x) = List.length x
  /\ normalize (str "sleep periods") = str "sleep_periods"
  /\ normalize (str "sleep-periods") = str "sleep_periods"
  /\ participantIngest_file W subdir config file
     = match classifyFile (w_unicode W) file with
       | Matched pid raw =>
           if str_in (normalize raw) (whitelist_tables config) then
             call (EvOpen (path_join subdir file))
                  (w_open W (path_join subdir file)) ;;
             data <- call (EvReadCsv (path_join subdir file))
                          (w_read_csv W (path_join subdir file)) ;;
             ingestData W data pid (normalize raw) config true
           else ret tt
       | Unmatched =>
           print (str "Warning : File name " ++ file
                    ++ str " does not follow naming convention. Skipping it.")
       end.
Proof.
  split; [|split; [|split; [|split; [|split]]]]; try reflexivity.
  - rewrite !normalize_map, map_map. apply map_ext. intros c.
    destruct (N.eqb c ch_space) eqn:E1; [reflexivity|].
    destruct (N.eqb c ch_hyphen) eqn:E2; [reflexivity|]. simpl.
    now rewrite E1, E2.
  - apply normalize_map.
  - rewrite normalize_map. apply length_map.
  - unfold participantIngest_file, classifyFile, normalize.
    destruct (re_match (w_unicode W) (file_name (w_unicode W)) file); reflexivity.
Qed.

Lemma at_label_absent label : forall labels values,
  ~ In label labels -> at_label label labels values = None.
Proof.
  induction labels as [|l labels IH]; intros [|v values] Hn; try reflexivity.
  simpl. destruct (Z.eqb_spec l label) as [->|_].
  - exfalso. apply Hn. now left.
  - apply IH. intros H. apply Hn. now right.
Qed.

Lemma at_label_found label x post vpost : forall pre vpre,
  ~ In label pre -> List.length vpre = List.length pre ->
  at_label label (pre ++ label :: post) (vpre ++ x :: vpost) = Some x.
Proof.
  induction pre as [|l pre IH]; intros [|v vpre] Hn Hlen; try discriminate.
  - simpl. now rewrite Z.eqb_refl.
  - simpl. destruct (Z.eqb_spec l label) as [->|_].
    + exfalso. apply Hn. now left.
    + apply IH; [|now injection Hlen]. intros H. apply Hn. now right.
Qed.




(** ** The trace only grows *)

Section Extends.

Variable P : event -> Prop.

Lemma extends_ret A (a : A) : extends P (ret a).
Proof. intros t. exists []. simpl. now rewrite app_nil_r. Qed.

Lemma extends_raise A e : extends P (@raise A e).
Proof. intros t. exists []. simpl. now rewrite app_nil_r. Qed.

Lemma extends_lift A (r : pyresult A) : extends P (lift r).
Proof. intros t. exists []. simpl. now rewrite app_nil_r. Qed.

Lemma extends_emit e : P e -> extends P (emit e).
Proof. intros He t. exists [e]. simpl. auto. Qed.

Lemma extends_bind A B (m : M A) (f : A -> M B) :
  extends P m -> (forall a, extends P (f a)) -> extends P (bind m f).
Proof.
  intros Hm Hf t. unfold bind. destruct (Hm t) as (l1 & E1 & F1).
  destruct (m t) as [t' [a|e]]; simpl in E1; subst t'.
  - destruct (Hf a (t ++ l1)) as (l2 & E2 & F2). exists (l1 ++ l2).
    rewrite E2, app_assoc. split; [reflexivity|]. now apply Forall_app.
  - exists l1. auto.
Qed.

(** The continuation may use what the pure step returned. *)
Lemma extends_bind_lift A B (r : pyresult A) (f : A -> M B) :
  (forall a, r = Returns a -> extends P (f a)) -> extends P (bind (lift r) f).
Proof.
  intros Hf t. unfold bind, lift. destruct r as [a|e].
  - apply (Hf a eq_refl).
  - exists []. simpl. now rewrite app_nil_r.
Qed.

Lemma extends_try A (body : M A) handles (handler : pyexc -> M A) :
  extends P body -> (forall e, extends P (handler e)) ->
  extends P (try_except body handles handler).
Proof.
  intros Hb Hh t. unfold try_except. destruct (Hb t) as (l1 & E1 & F1).
  destruct (body t) as [t' [a|e]]; simpl in E1; subst t'.
  - exists l1. auto.
  - destruct (handles e); [|exists l1; auto].
    destruct (Hh e (t ++ l1)) as (l2 & E2 & F2). exists (l1 ++ l2).
    rewrite E2, app_assoc. split; [reflexivity|]. now apply Forall_app.
Qed.

Lemma extends_for_each A (f : A -> M unit) l :
  (forall x, extends P (f x)) -> extends P (for_each f l).
Proof.
  intros Hf. induction l as [|x l IH]; simpl.
  - apply extends_ret.
  - apply extends_bind; auto.
Qed.

Lemma extends_call A e (r : pyresult A) : P e -> extends P (call e r).
Proof.
  intros He. unfold call. apply extends_bind;
    [now apply extends_emit|intros; apply extends_lift].
Qed.

Lemma extends_to_parquet W a : P (EvToParquet a) -> extends P (to_parquet W a).
Proof. intros He t. exists [EvToParquet a]. simpl. auto. Qed.

End Extends.

Lemma extends_emitted A P (m : M A) t :
  extends P m -> fst (m t) = t ++ emitted m t /\ Forall P (emitted m t).
Proof.
  intros H. destruct (H t) as (l & E & F). unfold emitted. rewrite E.
  rewrite skipn_app, Nat.sub_diag, skipn_all. simpl. auto.
Qed.

Lemma bind_cases A B P (m : M A) (k : A -> M B) (t : trace) :
  extends P m ->
  exists l, Forall P l /\
    ((exists e, m t = (t ++ l, Raises e) /\ bind m k t = (t ++ l, Raises e))
     \/ (exists a, m t = (t ++ l, Returns a) /\ bind m k t = k a (t ++ l))).
Proof.
  intros H. destruct (H t) as (l & E & F). exists l. split; [exact F|].
  unfold bind. destruct (m t) as [t' [a|e]]; simpl in E; subst t'; eauto.
Qed.

Ltac ext_step :=
  match goal with
  | |- extends _ (bind _ _) => apply extends_bind
  | |- extends _ (ret _) => apply extends_ret
  | |- extends _ (raise _) => apply extends_raise
  | |- extends _ (lift _) => apply extends_lift
  | |- extends _ (print _) => apply extends_emit
  | |- extends _ (emit _) => apply extends_emit
  | |- extends _ (call _ _) => apply extends_call
  | |- extends _ (try_except _ _ _) => apply extends_try
  | |- extends _ (for_each _ _) => apply extends_for_each
  | |- extends _ (if ?b then _ else _) => destruct b
  | |- extends _ (match ?x with _ => _ end) => destruct x
  | |- forall _, _ => intro
  end.

(** ** The steps of [ingestData] *)

Section Ingest.

Variable W : World.

Lemma smartTyper_extends (P : event -> Prop) example df col convert :
  (forall msg, P (EvPrint msg)) -> extends P (smartTyper W example df col convert).
Proof. intros HP. unfold smartTyper. repeat ext_step; apply HP. Qed.

(** [ingestData] either stops before the sink is called, having only
    printed, or calls the sink once, after which the answer of the sink
    decides how it ends. *)
Lemma ingestData_cases data pid tablename config enableTyper t :
  exists prints, Forall is_print_event prints /\
    ((exists e, ingestData W data pid tablename config enableTyper t
                = (t ++ prints, Raises e))
     \/ (exists d path,
           table_path (aws_s3_data (aws config)) tablename = Returns path
           /\ ingestData W data pid tablename config enableTyper t =
              let a := sink_call d path tablename config in
              match w_to_parquet W (t ++ prints) a with
              | Returns _ => (t ++ prints ++ [EvToParquet a], Returns tt)
              | Raises e =>
                  if is_Exception e
                  then (t ++ prints ++ [EvToParquet a; error_line tablename], Returns tt)
                  else (t ++ prints ++ [EvToParquet a], Raises e)
              end)).
Proof.
  unfold ingestData. unfold bind at 1. simpl.
  unfold bind at 1. unfold lift at 1.
  destruct (table_path (aws_s3_data (aws config)) tablename) as [path|e] eqn:Hpath.
  2: { exists [ingest_line tablename pid].
       split; [repeat constructor|]. left. exists e. reflexivity. }
  match goal with
  | |- context [bind ?m ?k _] =>
      destruct (@bind_cases _ _ is_print_event m k
                  (t ++ [ingest_line tablename pid])) as (l & Fl & Hl)
  end.
  { repeat ext_step; try apply smartTyper_extends; try reflexivity; intros; reflexivity. }
  exists (ingest_line tablename pid :: l).
  split; [constructor; [reflexivity|exact Fl]|].
  destruct Hl as [(e & _ & Hl) | (d & _ & Hl)].
  - left. exists e. refine (eq_trans Hl _). now rewrite <- app_assoc.
  - right. exists d, path. split; [reflexivity|]. refine (eq_trans Hl _).
    unfold try_except, to_parquet, sink_call, print, emit, error_line. simpl.
    rewrite <- ?app_assoc. simpl.
    destruct (w_to_parquet W _ _) as [[]|e]; [reflexivity|].
    destruct (is_Exception e); [|reflexivity].
    now rewrite <- ?app_assoc.
Qed.

Lemma emitted_eq A (m : M A) t l r : m t = (t ++ l, r) -> emitted m t = l.
Proof.
  intros E. unfold emitted. rewrite E. simpl.
  rewrite skipn_app, Nat.sub_diag, skipn_all. reflexivity.
Qed.

Lemma prints_no_sink prints a :
  Forall is_print_event prints -> ~ In (EvToParquet a) prints.
Proof.
  intros F HIn. rewrite Forall_forall in F. apply F in HIn. discriminate.
Qed.

(** A sink call of [ingestData] is the one call after the prints, and
    its arguments are those the function built. *)
Lemma ingestData_sink_event data pid tablename config enableTyper t a :
  In (EvToParquet a) (emitted (ingestData W data pid tablename config enableTyper) t) ->
  exists prints d path,
    Forall is_print_event prints
    /\ table_path (aws_s3_data (aws config)) tablename = Returns path
    /\ a = sink_call d path tablename config
    /\ ingestData W data pid tablename config enableTyper t =
       match w_to_parquet W (t ++ prints) a with
       | Returns _ => (t ++ prints ++ [EvToParquet a], Returns tt)
       | Raises e =>
           if is_Exception e
           then (t ++ prints ++ [EvToParquet a; error_line tablename], Returns tt)
           else (t ++ prints ++ [EvToParquet a], Raises e)
       end.
Proof.
  intros HIn.
  destruct (ingestData_cases data pid tablename config enableTyper t)
    as (prints & F & [(e & E) | (d & path & Hpath & E)]).
  - rewrite (@emitted_eq _ _ _ _ _ E) in HIn. now apply prints_no_sink in HIn.
  - exists prints, d, path. split; [exact F|]. split; [exact Hpath|].
    assert (Ha : a = sink_call d path tablename config).
    { cbv zeta in E.
      destruct (w_to_parquet W (t ++ prints) (sink_call d path tablename config))
        as [[]|e]; [|destruct (is_Exception e)];
        rewrite (@emitted_eq _ _ _ _ _ E) in HIn;
        apply in_app_or in HIn as [HIn | HIn];
        try (now apply prints_no_sink in HIn);
        unfold error_line in HIn; simpl in HIn; intuition congruence. }
    split; [exact Ha|]. subst a. exact E.
Qed.

End Ingest.

Lemma getitem_last_snoc r c : getitem_last (r ++ [c]) = Returns c.
Proof. unfold getitem_last. now rewrite rev_app_distr. Qed.




(** ** A failing sink against any other sink *)

Lemma calls_app t1 t2 : calls (t1 ++ t2) = calls t1 ++ calls t2.
Proof. apply filter_app. Qed.

Section Sim.

Lemma sim_ret A (a : A) : sim (ret a) (ret a).
Proof. intros t1 t2 H. simpl. auto. Qed.

Lemma sim_raise A e : sim (@raise A e) (raise e).
Proof. intros t1 t2 H. simpl. auto. Qed.

Lemma sim_lift A (r : pyresult A) : sim (lift r) (lift r).
Proof. intros t1 t2 H. simpl. auto. Qed.

Lemma sim_emit e : sim (emit e) (emit e).
Proof. intros t1 t2 H. simpl. rewrite !calls_app, H. auto. Qed.

Lemma sim_bind A B (m1 m2 : M A) (f1 f2 : A -> M B) :
  sim m1 m2 -> (forall a, sim (f1 a) (f2 a)) -> sim (bind m1 f1) (bind m2 f2).
Proof.
  intros Hm Hf t1 t2 H. unfold bind. destruct (Hm t1 t2 H) as [Hc Hr].
  destruct (m1 t1) as [t1' r1], (m2 t2) as [t2' r2]. simpl in Hc, Hr. subst r2.
  destruct r1 as [a|e]; [now apply Hf|]. simpl. auto.
Qed.

Lemma sim_try A (b1 b2 : M A) handles (h1 h2 : pyexc -> M A) :
  sim b1 b2 -> (forall e, sim (h1 e) (h2 e)) ->
  sim (try_except b1 handles h1) (try_except b2 handles h2).
Proof.
  intros Hb Hh t1 t2 H. unfold try_except. destruct (Hb t1 t2 H) as [Hc Hr].
  destruct (b1 t1) as [t1' r1], (b2 t2) as [t2' r2]. simpl in Hc, Hr. subst r2.
  destruct r1 as [a|e]; [simpl; auto|].
  destruct (handles e); [now apply Hh|]. simpl. auto.
Qed.

Lemma sim_for_each A (f1 f2 : A -> M unit) l :
  (forall x, sim (f1 x) (f2 x)) -> sim (for_each f1 l) (for_each f2 l).
Proof.
  intros Hf. induction l as [|x l IH]; simpl.
  - apply sim_ret.
  - apply sim_bind; auto.
Qed.

Lemma sim_call A e (r : pyresult A) : sim (call e r) (call e r).
Proof.
  unfold call. apply sim_bind; [apply sim_emit|intros; apply sim_lift].
Qed.

Variable W : World.
Variables f g : trace -> sink_args -> pyresult unit.
Hypothesis Hf : sink_raises_Exception f.
Hypothesis Hg : sink_raises_Exception g.

(** The guarded call to the sink: whatever the two sinks answer, the call
    is made and the script goes on. *)
Lemma sim_sink a msg1 msg2 :
  sim (try_except (to_parquet (with_sink W f) a) is_Exception (fun _ => print msg1))
      (try_except (to_parquet (with_sink W g) a) is_Exception (fun _ => print msg2)).
Proof.
  intros t1 t2 H. unfold try_except, to_parquet, print, emit.
  cbn [with_sink w_to_parquet].
  destruct (f t1 a) as [[]|e1] eqn:E1, (g t2 a) as [[]|e2] eqn:E2;
    try rewrite (@Hf _ _ _ E1); try rewrite (@Hg _ _ _ E2); cbn [fst snd];
    rewrite ?calls_app, H; simpl; rewrite ?app_nil_r; auto.
Qed.

Ltac sim_step :=
  match goal with
  | |- sim (try_except (to_parquet _ _) _ _) (try_except (to_parquet _ _) _ _) =>
      apply sim_sink
  | |- sim (bind _ _) (bind _ _) => apply sim_bind
  | |- sim (ret _) (ret _) => apply sim_ret
  | |- sim (raise _) (raise _) => apply sim_raise
  | |- sim (lift _) (lift _) => apply sim_lift
  | |- sim (print _) (print _) => apply sim_emit
  | |- sim (emit _) (emit _) => apply sim_emit
  | |- sim (call _ _) (call _ _) => apply sim_call
  | |- sim (try_except _ _ _) (try_except _ _ _) => apply sim_try
  | |- sim (for_each _ _) (for_each _ _) => apply sim_for_each
  | |- sim (if ?b then _ else _) (if ?b then _ else _) => destruct b
  | |- sim (match ?x with _ => _ end) (match ?x with _ => _ end) => destruct x
  | |- forall _, _ => intro
  end.

Lemma smartTyper_sim example df col convert :
  sim (smartTyper (with_sink W f) example df col convert)
      (smartTyper (with_sink W g) example df col convert).
Proof. unfold smartTyper. cbn [with_sink w_unicode w_to_datetime]. repeat sim_step. Qed.

Lemma ingestData_sim data pid tablename config enableTyper :
  sim (ingestData (with_sink W f) data pid tablename config enableTyper)
      (ingestData (with_sink W g) data pid tablename config enableTyper).
Proof. unfold ingestData. repeat (sim_step || apply smartTyper_sim). Qed.

Lemma participantIngest_sim subdir config :
  sim (participantIngest (with_sink W f) subdir config)
      (participantIngest (with_sink W g) subdir config).
Proof.
  unfold participantIngest, participantIngest_file.
  cbn [with_sink w_unicode w_listdir w_open w_read_csv].
  repeat (sim_step || apply ingestData_sim).
Qed.

Lemma looper_sim dirpath config :
  sim (looper (with_sink W f) dirpath config) (looper (with_sink W g) dirpath config).
Proof.
  unfold looper, looper_dir.
  cbn [with_sink w_unicode w_listdir w_isdir].
  repeat (sim_step || apply participantIngest_sim).
Qed.

End Sim.




(** ** Directories and files *)

Lemma is_match_re_match U r s :
  is_match U r s = true <-> exists c, re_match U r s = Some c.
Proof.
  unfold is_match. destruct (re_match U r s); split; eauto; try discriminate.
  intros [c [=]].
Qed.

Lemma re_match_none U r s : re_match U r s = None <-> is_match U r s <> true.
Proof.
  unfold is_match. destruct (re_match U r s); split; try easy.
  all: try (intros H; now elim H).
Qed.

(** C3: the classification of a directory name is one of the three; it is
    [Withdrawn] exactly for [PPID <digits> Data - withdrew], otherwise
    [Active] exactly for [PPID <digits> Data], otherwise [Invalid] (the [$]
    of the patterns also accepts one newline at the very end of the name).
    A withdrawn directory is only logged, never listed or read; an invalid
    name only gets the warning; an active one is handed to
    [participantIngest]. *)
Theorem classifyDirectory_spec (W : World) (dirpath : pystr) (config : Config)
        (name : pystr) (t : trace) :
  let U := w_unicode W in
  let path := path_join dirpath name in
  let seen :=
    EvIsDir path ::
    (if w_isdir W path then []
     else [EvPrint (str "Warning : " ++ name ++ str " is not a directory.")]) in
  In (classifyDirectory U name) [Active; Withdrawn; Invalid]
  /\ (classifyDirectory U name = Withdrawn
      <-> dir_shape (str " Data - withdrew") name)
  /\ (classifyDirectory U name = Active
      <-> ~ dir_shape (str " Data - withdrew") name /\ dir_shape (str " Data") name)
  /\ (classifyDirectory U name = Invalid
      <-> ~ dir_shape (str " Data - withdrew") name /\ ~ dir_shape (str " Data") name)
  /\ looper_dir W dirpath config name t =
     match classifyDirectory U name with
     | Withdrawn =>
         (t ++ seen ++ [EvPrint (str "Log : Skipping " ++ name
                                   ++ str " as its been marked as withdrawn.")],
          Returns tt)
     | Active => participantIngest W path config (t ++ seen)
     | Invalid =>
         (t ++ seen ++ [EvPrint (str "Warning : Directory name " ++ name
                          ++ str " does not follow naming convention. Skipping it.")],
          Returns tt)
     end.
Proof.
  intros U path seen.
  pose proof (dir_pattern_iff U (str " Data - withdrew") name) as Hw.
  pose proof (dir_pattern_iff U (str " Data") name) as Ha.
  change (dir_pattern (str " Data - withdrew")) with dir_name_withdrew in Hw.
  change (dir_pattern (str " Data")) with dir_name_active in Ha.
  unfold is_match in Hw, Ha.
  assert (Hloop : looper_dir W dirpath config name t =
     match classifyDirectory U name with
     | Withdrawn =>
         (t ++ seen ++ [EvPrint (str "Log : Skipping " ++ name
                                   ++ str " as its been marked as withdrawn.")],
          Returns tt)
     | Active => participantIngest W path config (t ++ seen)
     | Invalid =>
         (t ++ seen ++ [EvPrint (str "Warning : Directory name " ++ name
                          ++ str " does not follow naming convention. Skipping it.")],
          Returns tt)
     end).
  { unfold looper_dir, classifyDirectory, seen, path, U.
    destruct (w_isdir W (path_join dirpath name));
      destruct (re_match (w_unicode W) dir_name_withdrew name);
      try destruct (re_match (w_unicode W) dir_name_active name);
      cbv [call bind lift emit print ret negb];
      rewrite <- ?app_assoc; reflexivity. }
  split; [destruct (classifyDirectory U name); simpl; tauto|].
  split; [|split; [|split; [|exact Hloop]]]; clear Hloop;
    unfold classifyDirectory;
    destruct (re_match U dir_name_withdrew name) as [c1|];
    destruct (re_match U dir_name_active name) as [c2|];
    intuition (try discriminate; try reflexivity).
Qed.

Lemma classifyFile_matched U name pid raw :
  classifyFile U name = Matched pid raw -> file_shape U name pid raw.
Proof.
  unfold classifyFile. destruct (re_match U (file_name U) name) as [c|] eqn:E;
    [|discriminate].
  intros [= <- <-]. now apply file_name_sound.
Qed.

Lemma classifyFile_unmatched U name :
  classifyFile U name = Unmatched <-> ~ exists pid raw, file_shape U name pid raw.
Proof.
  unfold classifyFile. split.
  - destruct (re_match U (file_name U) name) as [c|] eqn:E; [discriminate|].
    intros _ (pid & raw & Hs). now apply file_name_complete in Hs.
  - intros Hn. destruct (re_match U (file_name U) name) as [c|] eqn:E; [|reflexivity].
    elim Hn. apply file_name_sound in E. eauto.
Qed.

(** C2, as the code has it: a name of exactly four segments between
    underscores, three alphanumeric tags and a last segment of
    alphanumerics, spaces and hyphens followed by [.csv], is matched, the
    participant being the third segment and the raw table name the fourth
    without [.csv].  A name is unmatched, and skipped with the warning,
    exactly when it cannot be read as [w1_w2_pid_raw.csv], optionally
    followed by one newline, with [w1], [w2] and [pid] non-empty runs of
    word characters (letters, digits and the underscore itself, so the
    leading tags may hold further underscores) and [raw] a non-empty run of
    [[0-9a-zA-Z \-]]; a matched name is read that way. *)
Theorem classifyFile_spec (W : World) (subdir : pystr) (config : Config)
        (name : pystr) (t : trace) :
  let U := w_unicode W in
  (forall t1 t2 t3 t4,
      grammar4 name t1 t2 t3 t4 -> classifyFile U name = Matched t3 t4)
  /\ (forall pid raw,
         classifyFile U name = Matched pid raw -> file_shape U name pid raw)
  /\ (classifyFile U name = Unmatched
      <-> ~ exists pid raw, file_shape U name pid raw)
  /\ (classifyFile U name = Unmatched ->
      participantIngest_file W subdir config name t
      = (t ++ [EvPrint (str "Warning : File name " ++ name
                          ++ str " does not follow naming convention. Skipping it.")],
         Returns tt)).
Proof.
  intros U. split; [|split; [|split]].
  - intros t1 t2 t3 t4 HG.
    pose proof (@grammar4_file_shape U _ _ _ _ _ HG) as Hs.
    destruct (classifyFile U name) as [pid raw|] eqn:E.
    + apply classifyFile_matched in E. destruct HG as (Hsplit & _).
      destruct (@file_shape_unique U _ _ _ _ _ _ _ Hsplit E) as [-> ->]. reflexivity.
    + apply classifyFile_unmatched in E. elim E. eauto.
  - apply classifyFile_matched.
  - apply classifyFile_unmatched.
  - unfold classifyFile, participantIngest_file. fold U.
    destruct (re_match U (file_name U) name); [discriminate|]. reflexivity.
Qed.

Lemma classifyFile_spec_witness :
  grammar4 (str "a_b_001_sleep periods.csv") (str "a") (str "b") (str "001")
           (str "sleep periods")
  /\ classifyFile ascii_only (str "a_b_001_sleep periods.csv")
     = Matched (str "001") (str "sleep periods")
  /\ classifyFile ascii_only (str "bad name.csv") = Unmatched
  /\ participantIngest_file demo_world (str "root") demo_config (str "bad name.csv") []
     = ([EvPrint (str "Warning : File name bad name.csv does not follow naming convention. Skipping it.")],
        Returns tt).
Proof.
  assert (HG : grammar4 (str "a_b_001_sleep periods.csv") (str "a") (str "b")
                        (str "001") (str "sleep periods")).
  { split; [reflexivity|]. repeat split; try discriminate; reflexivity. }
  split; [exact HG|]. split.
  - exact (proj1 (classifyFile_spec demo_world (str "root") demo_config
                    (str "a_b_001_sleep periods.csv") []) _ _ _ _ HG).
  - split; [reflexivity|].
    exact (proj2 (proj2 (proj2 (classifyFile_spec demo_world (str "root") demo_config
                                  (str "bad name.csv") []))) eq_refl).
Defined.

(** C2 as the specification states it fails: [a_b_c_d_sleep.csv] has five
    segments, so it is outside the four-segment grammar, and yet it is
    matched, with participant [d] and table [sleep]. *)
Lemma classifyFile_five_segments :
  (forall t1 t2 t3 t4, ~ grammar4 (str "a_b_c_d_sleep.csv") t1 t2 t3 t4)
  /\ classifyFile ascii_only (str "a_b_c_d_sleep.csv") = Matched (str "d") (str "sleep")
  /\ ~ (forall name,
          (forall t1 t2 t3 t4, ~ grammar4 name t1 t2 t3 t4) ->
          classifyFile ascii_only name = Unmatched).
Proof.
  assert (H5 : forall t1 t2 t3 t4, ~ grammar4 (str "a_b_c_d_sleep.csv") t1 t2 t3 t4).
  { intros t1 t2 t3 t4 (Hsplit & _). vm_compute in Hsplit. discriminate. }
  split; [exact H5|]. split; [reflexivity|].
  intros H. specialize (H _ H5). vm_compute in H. discriminate.
Qed.

(** ** Retyping a column *)

Lemma obj_getitem_after_pid data pid col ser :
  pystr_eqb (str "pid") col = false ->
  df_getitem data col = Returns ser ->
  obj_getitem (ODataFrame (df_set_scalar data (str "pid") (CStr pid))) col
  = Returns (ColSeries ser).
Proof.
  intros Hne H. unfold obj_getitem, df_getitem, df_set_scalar, df_setitem in *. simpl.
  rewrite assoc_set_other by exact Hne.
  destruct (assoc col (df_cols data)); [|discriminate]. now inversion H.
Qed.

Lemma dispatch_cases tablename col :
  dispatch tablename = Some col ->
  (pystr_eqb tablename (str "activity") || pystr_eqb tablename (str "sleep") = true
   /\ pystr_eqb tablename (str "sleep_periods") = false
   /\ col = str "summary_date")
  \/ (pystr_eqb tablename (str "activity") || pystr_eqb tablename (str "sleep") = false
      /\ pystr_eqb tablename (str "sleep_periods") = true
      /\ col = str "day").
Proof.
  unfold dispatch.
  destruct (pystr_eqb tablename (str "activity")) eqn:E1;
    [|destruct (pystr_eqb tablename (str "sleep")) eqn:E2]; simpl.
  - apply pystr_eqb_eq in E1. subst. intros [= <-]. left. auto.
  - apply pystr_eqb_eq in E2. subst. intros [= <-]. left. auto.
  - destruct (pystr_eqb tablename (str "sleep_periods")); [|discriminate].
    intros [= <-]. right. auto.
Qed.

(** On a dispatched table whose column is there, [ingestData] hands the
    sink whatever [smartTyper] returned. *)
Lemma ingestData_retyped W data pid tablename config t col ser example path :
  dispatch tablename = Some col ->
  table_path (aws_s3_data (aws config)) tablename = Returns path ->
  df_getitem data col = Returns ser ->
  sampleEntry (ColSeries ser) = Returns example ->
  ingestData W data pid tablename config true t =
  bind (smartTyper W example (ODataFrame (df_set_scalar data (str "pid") (CStr pid)))
                   col true)
       (fun d => try_except (to_parquet W (sink_call d path tablename config))
                            is_Exception
                            (fun _ => emit (error_line tablename)))
       (t ++ [ingest_line tablename pid]).
Proof.
  intros Hd Hpath Hcol Hsample.
  apply dispatch_cases in Hd as [(E1 & E2 & ->) | (E1 & E2 & ->)];
    pose proof (fun H => @obj_getitem_after_pid data pid _ ser H Hcol) as Hget;
    specialize (Hget eq_refl);
    unfold ingestData; unfold bind at 1; cbv [print emit];
    unfold bind at 1; rewrite Hpath; cbv [lift];
    rewrite E1, E2.
  - unfold bind at 1. unfold bind at 1. unfold bind at 1.
    rewrite Hget. unfold bind at 1. rewrite Hsample.
    unfold bind. destruct (smartTyper W example _ _ true _) as [t1 [d|e]];
      reflexivity.
  - unfold bind at 1. unfold bind at 1. cbv [ret]. unfold bind at 1.
    rewrite Hget. unfold bind at 1. rewrite Hsample.
    unfold bind. destruct (smartTyper W example _ _ true _) as [t1 [d|e]];
      reflexivity.
Qed.

Lemma try_upload W t a tablename :
  try_except (to_parquet W a) is_Exception (fun _ => emit (error_line tablename)) t
  = upload_outcome W t a tablename.
Proof.
  unfold try_except, to_parquet, upload_outcome, emit.
  destruct (w_to_parquet W t a) as [[]|e]; [reflexivity|].
  destruct (is_Exception e); [|reflexivity]. now rewrite <- app_assoc.
Qed.

Lemma smartTyper_no_match W ex df col convert t :
  is_match (w_unicode W) (date_exp (w_unicode W)) ex = false ->
  smartTyper W (CStr ex) df col convert t = (t, Returns ONone).
Proof. intros H. unfold smartTyper, try_except. now rewrite H. Qed.

Lemma smartTyper_value_error W ex df col convert t c msg :
  is_match (w_unicode W) (date_exp (w_unicode W)) ex = true ->
  obj_getitem df col = Returns c ->
  w_to_datetime W c = Raises (ValueError msg) ->
  smartTyper W (CStr ex) df col convert t
  = (t ++ [typer_warning_line col ex msg], Returns ONone).
Proof.
  intros H Hc Hd. unfold smartTyper, try_except, bind, lift.
  now rewrite H, Hc, Hd.
Qed.

Lemma smartTyper_converted W ex d col t ser useries :
  is_match (w_unicode W) (date_exp (w_unicode W)) ex = true ->
  df_getitem d col = Returns ser ->
  w_to_datetime W (ColSeries ser) = Returns useries ->
  smartTyper W (CStr ex) (ODataFrame d) col true t
  = (t ++ [typer_log_line col (s_dtype useries)],
     Returns (ODataFrame (df_setitem d col useries))).
Proof.
  intros H Hc Hd. unfold smartTyper, try_except, bind, lift, obj_getitem.
  now rewrite H, Hc, Hd.
Qed.

(** C4: the test on the example is a test of format: [2024-01-15] and
    [2024-02-31] pass, [2024-13-40] does not; in general a string passes
    exactly when it starts with four digits, a hyphen, a month [01]-[12], a
    hyphen and a day [01]-[31], not followed by a word character; an
    example that is not a string never passes.  When the test fails
    [smartTyper] converts nothing; when it passes and the column parses,
    the column is replaced by the parsed one. *)
Theorem sniff_date_format (W : World) (example : cell) (df : pyobj) (d : DataFrame)
        (col ex : pystr) (convert : bool) (t : trace) (ser useries : Series) :
  let U := w_unicode W in
  sniff U (CStr (str "2024-01-15")) = true
  /\ sniff U (CStr (str "2024-02-31")) = true
  /\ sniff U (CStr (str "2024-13-40")) = false
  /\ (sniff U (CStr ex) = true <-> date_shape U ex)
  /\ sniff U CNone = false
  /\ (forall z, sniff U (CInt z) = false)
  /\ (forall b, sniff U (CFloat b) = false)
  /\ (forall b, sniff U (CBool b) = false)
  /\ (forall ns, sniff U (CTimestamp ns) = false)
  /\ (sniff U example = false ->
      smartTyper W example df col convert t
      = (t, Returns (match example with CStr _ => ONone | _ => OTypeType end)))
  /\ (sniff U (CStr ex) = true ->
      df_getitem d col = Returns ser ->
      w_to_datetime W (ColSeries ser) = Returns useries ->
      smartTyper W (CStr ex) (ODataFrame d) col true t
      = (t ++ [typer_log_line col (s_dtype useries)],
         Returns (ODataFrame (df_setitem d col useries)))).
Proof.
  intros U. repeat (split; [reflexivity|]).
  split; [apply date_exp_iff|]. repeat (split; [reflexivity|]). split.
  - destruct example; try reflexivity. apply smartTyper_no_match.
  - apply smartTyper_converted.
Qed.

Lemma sniff_date_format_witness :
  sniff ascii_only (CStr (str "2024-13-40")) = false
  /\ smartTyper demo_world (CStr (str "2024-13-40")) (ODataFrame demo_frame)
                (str "summary_date") true []
     = ([], Returns ONone)
  /\ sniff ascii_only (CStr (str "2024-01-15")) = true
  /\ smartTyper demo_world (CStr (str "2024-01-15")) (ODataFrame demo_frame)
                (str "summary_date") true []
     = ([typer_log_line (str "summary_date") (str "datetime64[ns]")],
        Returns (ODataFrame (df_setitem demo_frame (str "summary_date") demo_converted))).
Proof.
  split; [reflexivity|]. split.
  - refine (proj1 (proj2 (proj2 (proj2 (proj2 (proj2 (proj2 (proj2 (proj2 (proj2
      (sniff_date_format demo_world (CStr (str "2024-13-40")) (ODataFrame demo_frame)
         demo_frame (str "summary_date") (str "2024-13-40") true [] demo_dates
         demo_converted)))))))))) _).
    reflexivity.
  - split; [reflexivity|].
    refine (proj2 (proj2 (proj2 (proj2 (proj2 (proj2 (proj2 (proj2 (proj2 (proj2
      (sniff_date_format demo_world CNone ONone
         demo_frame (str "summary_date") (str "2024-01-15") true [] demo_dates
         demo_converted)))))))))) _ _ _); reflexivity.
Defined.

(** C10: on a string example that does not look like a date, [smartTyper]
    called with [convert=True] returns [None]; so on a dispatched table
    whose sampled value is such a string, [ingestData] calls the sink with
    [None] in place of the batch. *)
Theorem smartTyper_not_date_gives_None (W : World) (data : DataFrame)
        (pid tablename : pystr) (config : Config) (t : trace) (df : pyobj)
        (col ex path : pystr) (ser : Series) (rest : list cell) :
  sniff (w_unicode W) (CStr ex) = false ->
  dispatch tablename = Some col ->
  table_path (aws_s3_data (aws config)) tablename = Returns path ->
  df_getitem data col = Returns ser ->
  s_values ser = CStr ex :: rest ->
  smartTyper W (CStr ex) df col true t = (t, Returns ONone)
  /\ ingestData W data pid tablename config true t
     = upload_outcome W (t ++ [ingest_line tablename pid])
                      (sink_call ONone path tablename config) tablename.
Proof.
  intros Hs Hd Hpath Hcol Hv. split; [now apply smartTyper_no_match|].
  assert (Hsample : sampleEntry (ColSeries ser) = Returns (CStr ex))
    by (unfold sampleEntry, getitem0; now rewrite Hv).
  rewrite (@ingestData_retyped W data pid tablename config t col ser (CStr ex) path
             Hd Hpath Hcol Hsample).
  unfold bind. rewrite smartTyper_no_match by exact Hs. apply try_upload.
Qed.

Lemma smartTyper_not_date_gives_None_witness :
  ingestData demo_world text_frame (str "001") (str "sleep") demo_config true []
  = ([ingest_line (str "sleep") (str "001");
      EvToParquet (sink_call ONone (str "s3://bucket/data/sleep/") (str "sleep")
                             demo_config)],
     Returns tt).
Proof.
  refine (eq_trans (proj2 (@smartTyper_not_date_gives_None demo_world text_frame
            (str "001") (str "sleep") demo_config [] ONone (str "summary_date")
            (str "n/a") (str "s3://bucket/data/sleep/")
            {| s_dtype := str "object"; s_values := [CStr (str "n/a")] |} []
            eq_refl eq_refl eq_refl eq_refl eq_refl)) _).
  reflexivity.
Defined.

(** C1 does not hold of the code.  On a dispatched table whose sampled
    value looks like a date, when parsing the column raises a value error,
    [smartTyper] prints the warning and returns [None], as the claim says;
    but [ingestData] then calls the sink with that [None], not with the
    original batch. *)
Theorem ingestData_value_error_submits_None (W : World) (data : DataFrame)
        (pid tablename : pystr) (config : Config) (t : trace)
        (col ex path msg : pystr) (ser : Series) (rest : list cell) :
  sniff (w_unicode W) (CStr ex) = true ->
  dispatch tablename = Some col ->
  table_path (aws_s3_data (aws config)) tablename = Returns path ->
  df_getitem data col = Returns ser ->
  s_values ser = CStr ex :: rest ->
  w_to_datetime W (ColSeries ser) = Raises (ValueError msg) ->
  ingestData W data pid tablename config true t
  = upload_outcome W (t ++ [ingest_line tablename pid; typer_warning_line col ex msg])
                   (sink_call ONone path tablename config) tablename.
Proof.
  intros Hs Hd Hpath Hcol Hv Hraise.
  assert (Hsample : sampleEntry (ColSeries ser) = Returns (CStr ex))
    by (unfold sampleEntry, getitem0; now rewrite Hv).
  rewrite (@ingestData_retyped W data pid tablename config t col ser (CStr ex) path
             Hd Hpath Hcol Hsample).
  assert (Hget : obj_getitem (ODataFrame (df_set_scalar data (str "pid") (CStr pid))) col
                 = Returns (ColSeries ser)).
  { apply obj_getitem_after_pid; [|exact Hcol].
    apply dispatch_cases in Hd as [(_ & _ & ->) | (_ & _ & ->)]; reflexivity. }
  unfold bind.
  rewrite (@smartTyper_value_error W ex _ col true _ _ msg Hs Hget Hraise).
  rewrite try_upload. now rewrite <- app_assoc.
Qed.

Lemma ingestData_value_error_submits_None_witness :
  ingestData bad_dates_world bad_frame (str "001") (str "sleep") demo_config true []
  = ([ingest_line (str "sleep") (str "001");
      typer_warning_line (str "summary_date") (str "2024-02-31")
                         (str "day is out of range for month");
      EvToParquet (sink_call ONone (str "s3://bucket/data/sleep/") (str "sleep")
                             demo_config);
      error_line (str "sleep")],
     Returns tt).
Proof.
  refine (eq_trans (@ingestData_value_error_submits_None bad_dates_world bad_frame
            (str "001") (str "sleep") demo_config [] (str "summary_date")
            (str "2024-02-31") (str "s3://bucket/data/sleep/")
            (str "day is out of range for month") bad_dates
            [CStr (str "2024-03-01")]
            eq_refl eq_refl eq_refl eq_refl eq_refl eq_refl) _).
  reflexivity.
Defined.

(** ** Start-up *)

(** C8, as the code has it: when the whitelist and the configuration file
    can be read and the section [AWS] lacks one of the two keys, [main]
    raises the error [Malformed config file section - aws] after having
    opened and read [whitelist.txt] and read [config.cfg], and nothing
    else was done: no directory listed, no file of data read, no sink
    call. *)
Theorem loadConfig_missing_key (W : World) (directory : pystr) (t : trace)
        (lines : list pystr) (sections : list (pystr * cfg_section))
        (sec : cfg_section) :
  w_open W whitelist_file = Returns tt ->
  w_readlines W whitelist_file = Returns lines ->
  w_config_read W config_file = Returns sections ->
  assoc (str "AWS") sections = Some sec ->
  has_option sec (str "aws_database") && has_option sec (str "aws_s3_data") = false ->
  main W directory t
  = (t ++ [EvOpen whitelist_file; EvReadLines whitelist_file; EvConfigRead config_file],
     Raises (PlainException (str "Malformed config file section - aws"))).
Proof.
  intros Ho Hl Hc Hs Hk.
  unfold main, loadConfig, call, bind, emit, lift, raise.
  rewrite Ho, Hl, Hc, Hs, Hk. simpl. now rewrite <- !app_assoc.
Qed.

Lemma loadConfig_missing_key_witness :
  main missing_key_world (str "root") []
  = ([EvOpen whitelist_file; EvReadLines whitelist_file; EvConfigRead config_file],
     Raises (PlainException (str "Malformed config file section - aws"))).
Proof.
  exact (@loadConfig_missing_key missing_key_world (str "root") []
           [str "sleep" ++ [ch_newline]; str "activity" ++ [ch_newline]]
           [(str "AWS", [(str "aws_database", Returns (str "oura"))])]
           [(str "aws_database", Returns (str "oura"))]
           eq_refl eq_refl eq_refl eq_refl eq_refl).
Defined.

(** C8 as the specification states it fails: with [aws_s3_data] missing,
    the process has opened and read the whitelist and read the
    configuration file by the time it aborts. *)
Lemma loadConfig_reads_before_check :
  has_option [(str "aws_database", Returns (str "oura"))] (str "aws_s3_data") = false
  /\ snd (main missing_key_world (str "root") [])
     = Raises (PlainException (str "Malformed config file section - aws"))
  /\ fst (main missing_key_world (str "root") [])
     = [EvOpen whitelist_file; EvReadLines whitelist_file; EvConfigRead config_file]
  /\ fst (main missing_key_world (str "root") []) <> [].
Proof. repeat split; try reflexivity. discriminate. Qed.

(** * The rest of the script *)

(** ** [ingestData], step by step *)

Lemma assoc_set_same A k (v : A) l : assoc k (assoc_set k v l) = Some v.
Proof.
  induction l as [|[x w] l IH]; simpl.
  - now rewrite pystr_eqb_refl.
  - destruct (pystr_eqb x k) eqn:E; simpl; [now rewrite pystr_eqb_refl|].
    now rewrite E.
Qed.

Lemma ingestData_run W data pid tablename config enableTyper t path :
  table_path (aws_s3_data (aws config)) tablename = Returns path ->
  ingestData W data pid tablename config enableTyper t =
  match typer_block W enableTyper tablename
          (ODataFrame (df_set_scalar data (str "pid") (CStr pid)))
          (t ++ [ingest_line tablename pid]) with
  | (t1, Returns d) => upload_outcome W t1 (sink_call d path tablename config) tablename
  | (t1, Raises e) => (t1, Raises e)
  end.
Proof.
  intros Hpath.
  change (ingestData W data pid tablename config enableTyper t)
    with (bind (lift (table_path (aws_s3_data (aws config)) tablename))
               (fun path =>
                  bind (typer_block W enableTyper tablename
                          (ODataFrame (df_set_scalar data (str "pid") (CStr pid))))
                       (fun d =>
                          try_except (to_parquet W (sink_call d path tablename config))
                                     is_Exception
                                     (fun _ => emit (error_line tablename))))
               (t ++ [ingest_line tablename pid])).
  unfold bind at 1. unfold lift. rewrite Hpath. unfold bind.
  destruct (typer_block W enableTyper tablename _ _) as [t1 [d|e]]; [|reflexivity].
  apply try_upload.
Qed.

Lemma typer_block_off W enableTyper tablename data t :
  enableTyper && is_dispatched tablename = false ->
  typer_block W enableTyper tablename data t = (t, Returns data).
Proof.
  unfold typer_block, is_dispatched, dispatch.
  destruct enableTyper; [|reflexivity]. simpl.
  destruct (pystr_eqb tablename (str "activity") || pystr_eqb tablename (str "sleep"));
    [discriminate|].
  destruct (pystr_eqb tablename (str "sleep_periods")); [discriminate|]. reflexivity.
Qed.

Lemma typer_block_on W tablename data col t :
  dispatch tablename = Some col ->
  typer_block W true tablename data t =
  bind (lift (obj_getitem data col))
       (fun c => bind (lift (sampleEntry c))
                      (fun example => smartTyper W example data col true)) t.
Proof.
  intros Hd. apply dispatch_cases in Hd as [(E1 & E2 & ->) | (E1 & E2 & ->)];
    unfold typer_block; rewrite E1, E2.
  - unfold bind at 1.
    destruct (bind (lift (obj_getitem data (str "summary_date"))) _ t) as [t1 [d|e]];
      reflexivity.
  - reflexivity.
Qed.

(** X1: with the typer switched off, or on a table outside the manual
    dispatch, the batch reaches the sink as it was read, with the column
    [pid] added and nothing else touched. *)
Theorem ingestData_not_dispatched (W : World) (data : DataFrame)
        (pid tablename path : pystr) (config : Config) (enableTyper : bool)
        (t : trace) :
  enableTyper && is_dispatched tablename = false ->
  table_path (aws_s3_data (aws config)) tablename = Returns path ->
  ingestData W data pid tablename config enableTyper t
  = upload_outcome W (t ++ [ingest_line tablename pid])
      (sink_call (ODataFrame (df_set_scalar data (str "pid") (CStr pid)))
                 path tablename config)
      tablename.
Proof.
  intros Hoff Hpath. rewrite (@ingestData_run W data pid tablename config
                               enableTyper t path Hpath).
  now rewrite typer_block_off.
Qed.

Lemma ingestData_not_dispatched_witness :
  ingestData demo_world demo_frame (str "001") (str "heart") demo_config true []
  = ([ingest_line (str "heart") (str "001");
      EvToParquet (sink_call (ODataFrame (df_set_scalar demo_frame (str "pid")
                                            (CStr (str "001"))))
                             (str "s3://bucket/data/heart/") (str "heart") demo_config)],
     Returns tt).
Proof.
  refine (eq_trans (@ingestData_not_dispatched demo_world demo_frame (str "001")
                      (str "heart") (str "s3://bucket/data/heart/") demo_config true []
                      eq_refl eq_refl) _).
  reflexivity.
Defined.





(** X4: on a dispatched table whose file lacks the column to retype,
    [ingestData] raises the [KeyError] of the lookup right after its log
    line: the sink is not called, and nothing catches the error. *)
Theorem ingestData_missing_column (W : World) (data : DataFrame)
        (pid tablename col path : pystr) (config : Config) (t : trace) :
  dispatch tablename = Some col ->
  table_path (aws_s3_data (aws config)) tablename = Returns path ->
  assoc col (df_cols data) = None ->
  ingestData W data pid tablename config true t
  = (t ++ [ingest_line tablename pid], Raises (KeyError col)).
Proof.
  intros Hd Hpath Hcol.
  rewrite (@ingestData_run W data pid tablename config true t path Hpath).
  rewrite (@typer_block_on W tablename _ col _ Hd).
  assert (Hne : pystr_eqb (str "pid") col = false)
    by (apply dispatch_cases in Hd as [(_ & _ & ->) | (_ & _ & ->)]; reflexivity).
  unfold bind, lift, obj_getitem, df_getitem, df_set_scalar, df_setitem. simpl.
  rewrite assoc_set_other by exact Hne. now rewrite Hcol.
Qed.

Lemma ingestData_missing_column_witness :
  ingestData demo_world scores_frame (str "001") (str "sleep") demo_config true []
  = ([ingest_line (str "sleep") (str "001")], Raises (KeyError (str "summary_date"))).
Proof.
  exact (@ingestData_missing_column demo_world scores_frame (str "001") (str "sleep")
           (str "summary_date") (str "s3://bucket/data/sleep/") demo_config []
           eq_refl eq_refl eq_refl).
Defined.

(** X5: the storage path cannot be built from an empty root: [table_path]
    fails exactly on the empty root, with an [IndexError], and then
    [ingestData] raises it right after its log line, whatever the table
    and the batch, without calling the sink. *)
Theorem ingestData_empty_root (W : World) (data : DataFrame)
        (pid tablename s3_path : pystr) (config : Config) (enableTyper : bool)
        (t : trace) :
  (table_path s3_path tablename = Raises IndexError <-> s3_path = [])
  /\ (forall e, table_path s3_path tablename = Raises e -> e = IndexError)
  /\ (aws_s3_data (aws config) = [] ->
      ingestData W data pid tablename config enableTyper t
      = (t ++ [ingest_line tablename pid], Raises IndexError)).
Proof.
  assert (Hcases : s3_path = [] \/ exists r c, s3_path = r ++ [c]).
  { destruct s3_path as [|x s] using rev_ind; eauto. }
  split; [|split].
  - destruct Hcases as [-> | (r & c & ->)]; [split; reflexivity|].
    unfold table_path. rewrite getitem_last_snoc. split; [discriminate|].
    intros E. now destruct r.
  - destruct Hcases as [-> | (r & c & ->)]; unfold table_path.
    + intros e [= <-]. reflexivity.
    + rewrite getitem_last_snoc. discriminate.
  - intros Hempty. unfold ingestData, bind, print, emit, lift. now rewrite Hempty.
Qed.

Lemma ingestData_empty_root_witness :
  ingestData demo_world demo_frame (str "001") (str "sleep")
             {| whitelist_tables := [str "sleep"];
                aws := {| aws_database := str "oura"; aws_s3_data := [] |} |} true []
  = ([ingest_line (str "sleep") (str "001")], Raises IndexError).
Proof.
  exact (proj2 (proj2 (ingestData_empty_root demo_world demo_frame (str "001")
                         (str "sleep") []
                         {| whitelist_tables := [str "sleep"];
                            aws := {| aws_database := str "oura"; aws_s3_data := [] |} |}
                         true [])) eq_refl).
Defined.

(** ** What [smartTyper] can return *)

Lemma smartTyper_outcome W example df col convert t :
  exists prints r,
    smartTyper W example df col convert t = (t ++ prints, r)
    /\ Forall is_print_event prints
    /\ List.length prints <= 1
    /\ match r with
       | Returns (ODataFrame d) =>
           exists d0 ser u,
             df = ODataFrame d0 /\ convert = true
             /\ df_getitem d0 col = Returns ser
             /\ w_to_datetime W (ColSeries ser) = Returns u
             /\ d = df_setitem d0 col u
       | Returns (OSeries _) => convert = false
       | Returns _ => True
       | Raises e => is_ValueError e = false
       end.
Proof.
  assert (Hnil : forall r : pyresult pyobj,
             match r with
             | Returns (ODataFrame _) | Returns (OSeries _) => False
             | Returns _ => True
             | Raises e => is_ValueError e = false
             end ->
             exists prints r', (t, r) = (t ++ prints, r')
               /\ Forall is_print_event prints /\ List.length prints <= 1
               /\ match r' with
                  | Returns (ODataFrame d) =>
                      exists d0 ser u,
                        df = ODataFrame d0 /\ convert = true
                        /\ df_getitem d0 col = Returns ser
                        /\ w_to_datetime W (ColSeries ser) = Returns u
                        /\ d = df_setitem d0 col u
                  | Returns (OSeries _) => convert = false
                  | Returns _ => True
                  | Raises e => is_ValueError e = false
                  end).
  { intros r Hr. exists [], r. rewrite app_nil_r.
    split; [reflexivity|]. split; [constructor|]. split; [simpl; lia|].
    destruct r as [[| | |]|e]; auto; contradiction. }
  assert (Hone : forall (ev : event) (r : pyresult pyobj),
             is_print ev = true ->
             match r with
             | Returns (ODataFrame d) =>
                 exists d0 ser u,
                   df = ODataFrame d0 /\ convert = true
                   /\ df_getitem d0 col = Returns ser
                   /\ w_to_datetime W (ColSeries ser) = Returns u
                   /\ d = df_setitem d0 col u
             | Returns (OSeries _) => convert = false
             | Returns _ => True
             | Raises e => is_ValueError e = false
             end ->
             exists prints r', (t ++ [ev], r) = (t ++ prints, r')
               /\ Forall is_print_event prints /\ List.length prints <= 1
               /\ match r' with
                  | Returns (ODataFrame d) =>
                      exists d0 ser u,
                        df = ODataFrame d0 /\ convert = true
                        /\ df_getitem d0 col = Returns ser
                        /\ w_to_datetime W (ColSeries ser) = Returns u
                        /\ d = df_setitem d0 col u
                  | Returns (OSeries _) => convert = false
                  | Returns _ => True
                  | Raises e => is_ValueError e = false
                  end).
  { intros ev r Hev Hr. exists [ev], r.
    split; [reflexivity|]. split; [repeat constructor; exact Hev|].
    split; [simpl; lia|exact Hr]. }
  unfold smartTyper.
  destruct example as [| ex | | | |]; try (apply Hnil; exact I).
  unfold try_except, bind, lift, print, emit.
  destruct (is_match (w_unicode W) (date_exp (w_unicode W)) ex);
    [|apply Hnil; exact I].
  destruct (obj_getitem df col) as [c|e] eqn:Hget.
  2: { cbv beta iota. replace (is_ValueError e) with false.
       - apply Hnil. destruct df as [d0| | |]; simpl in Hget.
         + destruct (df_getitem d0 col) eqn:Hg; [discriminate|].
           unfold df_getitem in Hg. destruct (assoc col (df_cols d0)); [discriminate|].
           inversion Hg; inversion Hget; subst. reflexivity.
         + inversion Hget; reflexivity.
         + inversion Hget; reflexivity.
         + discriminate.
       - destruct df as [d0| | |]; simpl in Hget.
         + destruct (df_getitem d0 col) eqn:Hg; [discriminate|].
           unfold df_getitem in Hg. destruct (assoc col (df_cols d0)); [discriminate|].
           inversion Hg; inversion Hget; subst. reflexivity.
         + inversion Hget; reflexivity.
         + inversion Hget; reflexivity.
         + discriminate. }
  destruct (w_to_datetime W c) as [u|e] eqn:Hconv; cbv beta iota.
  - destruct convert.
    + destruct df as [d0| | |]; simpl; apply Hone; try reflexivity.
      simpl in Hget. destruct (df_getitem d0 col) as [ser|] eqn:Hser; [|discriminate].
      inversion Hget; subst. exists d0, ser, u. auto.
    + apply Hone; reflexivity.
  - destruct (is_ValueError e) eqn:Hve.
    + apply Hone; [reflexivity|exact I].
    + apply Hnil. exact Hve.
Qed.

(** X6: [smartTyper] never lets a [ValueError] out, whatever the frame, the
    column and the parser do: it either returns or raises another
    exception; and all it does besides is print at most one line. *)
Theorem smartTyper_no_ValueError (W : World) (example : cell) (df : pyobj)
        (col : pystr) (convert : bool) (t : trace) :
  (forall msg, snd (smartTyper W example df col convert t) <> Raises (ValueError msg))
  /\ Forall is_print_event (emitted (smartTyper W example df col convert) t)
  /\ List.length (emitted (smartTyper W example df col convert) t) <= 1.
Proof.
  destruct (smartTyper_outcome W example df col convert t)
    as (prints & r & E & F & L & Hr).
  rewrite (@emitted_eq _ _ _ _ _ E). rewrite E. simpl.
  split; [|auto]. intros msg ->. discriminate.
Qed.

Lemma typer_block_extends W enableTyper tablename data :
  extends is_print_event (typer_block W enableTyper tablename data).
Proof.
  unfold typer_block.
  repeat (ext_step || apply smartTyper_extends); intros; reflexivity.
Qed.

(** The frame the block hands on is the one it was given, or that with the
    dispatched column parsed. *)
Lemma typer_block_frame W enableTyper tablename d0 t :
  match snd (typer_block W enableTyper tablename (ODataFrame d0) t) with
  | Returns (ODataFrame d) =>
      d = d0
      \/ exists col ser u,
           dispatch tablename = Some col
           /\ df_getitem d0 col = Returns ser
           /\ w_to_datetime W (ColSeries ser) = Returns u
           /\ d = df_setitem d0 col u
  | Returns (OSeries _) => False
  | _ => True
  end.
Proof.
  destruct (enableTyper && is_dispatched tablename) eqn:Hon.
  2: { rewrite typer_block_off by exact Hon. simpl. auto. }
  apply andb_prop in Hon as [-> Hdisp]. unfold is_dispatched in Hdisp.
  destruct (dispatch tablename) as [col|] eqn:Hd; [|discriminate].
  rewrite (@typer_block_on W tablename _ col t Hd).
  unfold bind, lift. simpl.
  destruct (df_getitem d0 col) as [ser|e]; [|exact I].
  destruct (sampleEntry (ColSeries ser)) as [example|e]; [|exact I].
  destruct (smartTyper_outcome W example (ODataFrame d0) col true t)
    as (prints & r & E & _ & _ & Hr).
  rewrite E. simpl. destruct r as [[d| | |]|e]; auto.
  - destruct Hr as (d1 & ser' & u & [= <-] & _ & H1 & H2 & ->). right. eauto 8.
  - discriminate.
Qed.

Lemma ingestData_sink_frame W data pid tablename config enableTyper t a :
  In (EvToParquet a) (emitted (ingestData W data pid tablename config enableTyper) t) ->
  snd (typer_block W enableTyper tablename
         (ODataFrame (df_set_scalar data (str "pid") (CStr pid)))
         (t ++ [ingest_line tablename pid]))
  = Returns (sa_df a).
Proof.
  intros HIn.
  destruct (table_path (aws_s3_data (aws config)) tablename) as [path|e] eqn:Hpath.
  2: { assert (E : ingestData W data pid tablename config enableTyper t
                   = (t ++ [ingest_line tablename pid], Raises e))
         by (unfold ingestData, bind, print, emit, lift; now rewrite Hpath).
       rewrite (@emitted_eq _ _ _ _ _ E) in HIn.
       destruct HIn as [HIn | []]. discriminate. }
  pose proof (@ingestData_run W data pid tablename config enableTyper t path Hpath) as E.
  destruct (typer_block_extends W enableTyper tablename
              (ODataFrame (df_set_scalar data (str "pid") (CStr pid)))
              (t ++ [ingest_line tablename pid])) as (l & El & Fl).
  destruct (typer_block W enableTyper tablename _ _) as [t1 [d|e]];
    simpl in El; subst t1; simpl.
  - f_equal. unfold upload_outcome in E.
    assert (Hl : forall tail r,
               ingestData W data pid tablename config enableTyper t
               = ((t ++ [ingest_line tablename pid]) ++ l
                    ++ EvToParquet (sink_call d path tablename config) :: tail, r) ->
               (forall x, In x tail -> is_print x = true) ->
               d = sa_df a).
    { intros tail r E' Htail. rewrite <- app_assoc in E'.
      rewrite (@emitted_eq _ _ _ _ _ E') in HIn.
      destruct HIn as [HIn | HIn]; [discriminate|].
      simpl in HIn. destruct (in_app_or _ _ _ HIn) as [H1 | H2];
        [now apply prints_no_sink in H1|].
      simpl in H2. destruct H2 as [H2 | H3].
      - inversion H2. reflexivity.
      - apply Htail in H3. discriminate. }
    destruct (w_to_parquet W _ _) as [[]|e]; [|destruct (is_Exception e)].
    + apply (Hl [] (Returns tt)); [now rewrite E, <- app_assoc|intros x []].
    + apply (Hl [error_line tablename] (Returns tt)).
      * rewrite E. now rewrite <- !app_assoc.
      * intros x [<- | []]. reflexivity.
    + apply (Hl [] (Raises e)); [now rewrite E, <- app_assoc|intros x []].
  - rewrite <- app_assoc in E. rewrite (@emitted_eq _ _ _ _ _ E) in HIn.
    destruct HIn as [HIn | HIn]; [discriminate|]. now apply prints_no_sink in HIn.
Qed.

(** X7: whenever [ingestData] hands the sink a data frame, that frame has
    as many rows as the file had, its column [pid] holds the participant
    on every row (replacing a column [pid] of the file, if there was one),
    and every column other than [pid] and the dispatched one is the
    column of the file. *)
Theorem ingestData_pid_column (W : World) (data : DataFrame) (pid tablename : pystr)
        (config : Config) (enableTyper : bool) (t : trace) (a : sink_args)
        (d : DataFrame) :
  In (EvToParquet a) (emitted (ingestData W data pid tablename config enableTyper) t) ->
  sa_df a = ODataFrame d ->
  df_rows d = df_rows data
  /\ df_getitem d (str "pid") = Returns (pid_column pid (df_rows data))
  /\ (forall c, pystr_eqb (str "pid") c = false -> dispatch tablename <> Some c ->
                df_getitem d c = df_getitem data c).
Proof.
  intros HIn Hdf. apply ingestData_sink_frame in HIn.
  pose proof (typer_block_frame W enableTyper tablename
                (df_set_scalar data (str "pid") (CStr pid))
                (t ++ [ingest_line tablename pid])) as H.
  rewrite HIn, Hdf in H.
  destruct H as [-> | (col & ser & u & Hd & _ & _ & ->)].
  - split; [reflexivity|]. split.
    + unfold df_getitem, df_set_scalar, df_setitem. simpl. now rewrite assoc_set_same.
    + intros c Hc _. unfold df_getitem, df_set_scalar, df_setitem. simpl.
      now rewrite assoc_set_other by exact Hc.
  - assert (Hne : pystr_eqb col (str "pid") = false)
      by (apply dispatch_cases in Hd as [(_ & _ & ->) | (_ & _ & ->)]; reflexivity).
    split; [reflexivity|]. split.
    + unfold df_getitem, df_set_scalar, df_setitem. simpl.
      rewrite assoc_set_other by exact Hne. now rewrite assoc_set_same.
    + intros c Hc Hnd. unfold df_getitem, df_set_scalar, df_setitem. simpl.
      assert (Hcc : pystr_eqb col c = false).
      { destruct (pystr_eqb col c) eqn:E; [|reflexivity].
        apply pystr_eqb_eq in E. subst c. now elim Hnd. }
      rewrite assoc_set_other by exact Hcc. now rewrite assoc_set_other by exact Hc.
Qed.

Lemma ingestData_pid_column_witness :
  df_getitem demo_uploaded (str "pid") = Returns (pid_column (str "001") 2)
  /\ df_getitem demo_uploaded (str "score") = df_getitem demo_frame (str "score").
Proof.
  destruct (@ingestData_pid_column demo_world demo_frame (str "001") (str "sleep")
              demo_config true []
              (sink_call (ODataFrame demo_uploaded) (str "s3://bucket/data/sleep/")
                         (str "sleep") demo_config)
              demo_uploaded) as (_ & H1 & H2).
  - vm_compute. right. right. left. reflexivity.
  - reflexivity.
  - split; [exact H1|]. apply H2; [reflexivity|discriminate].
Defined.

(** ** What a whole run does *)

Lemma ingestData_extends W (P : event -> Prop) data pid tablename config enableTyper :
  (forall msg, P (EvPrint msg)) ->
  (forall d path,
      table_path (aws_s3_data (aws config)) tablename = Returns path ->
      P (EvToParquet (sink_call d path tablename config))) ->
  extends P (ingestData W data pid tablename config enableTyper).
Proof.
  intros Hprint Hsink t.
  assert (Hprints : forall l, Forall is_print_event l -> Forall P l).
  { intros l F. apply Forall_forall. intros [msg| | | | | | |] Hx; try apply Hprint;
      rewrite Forall_forall in F; apply F in Hx; discriminate. }
  destruct (ingestData_cases W data pid tablename config enableTyper t)
    as (prints & F & [(e & E) | (d & path & Hpath & E)]).
  - exists prints. rewrite E. split; [reflexivity|]. now apply Hprints.
  - cbv zeta in E. rewrite E.
    destruct (w_to_parquet W (t ++ prints) (sink_call d path tablename config))
      as [[]|e]; [|destruct (is_Exception e)]; eexists; (split; [reflexivity|]);
      apply Forall_app; (split; [now apply Hprints|]);
      repeat constructor; try apply Hprint; now apply Hsink.
Qed.

Lemma participantIngest_file_ok W dirpath config d f :
  classifyDirectory (w_unicode W) d = Active ->
  extends (run_event_ok W dirpath config)
          (participantIngest_file W (path_join dirpath d) config f).
Proof.
  intros Hd. unfold participantIngest_file.
  destruct (re_match (w_unicode W) (file_name (w_unicode W)) f) as [m|] eqn:Em.
  2: { apply extends_emit. exact I. }
  assert (Hf : classifyFile (w_unicode W) f = Matched (group 3 m) (group 4 m))
    by (unfold classifyFile; now rewrite Em).
  change (replace ch_hyphen ch_underscore (replace ch_space ch_underscore (group 4 m)))
    with (normalize (group 4 m)).
  destruct (str_in (normalize (group 4 m)) (whitelist_tables config)) eqn:Hw;
    [|apply extends_ret].
  assert (Hp : exists d0 f0 pid raw,
             path_join (path_join dirpath d) f = path_join (path_join dirpath d0) f0
             /\ classifyDirectory (w_unicode W) d0 = Active
             /\ classifyFile (w_unicode W) f0 = Matched pid raw
             /\ str_in (normalize raw) (whitelist_tables config) = true)
    by (exists d, f, (group 3 m), (group 4 m); auto).
  apply extends_bind; [apply extends_call; exact Hp|intros _].
  apply extends_bind; [apply extends_call; exact Hp|intros data].
  apply ingestData_extends; [intros; exact I|].
  intros d' path Hpath. exists (group 4 m). simpl.
  apply file_name_sound in Em. destruct Em as (g1 & g2 & _ & _ & _ & Hraw & _).
  repeat split; auto; apply Hraw.
Qed.

Lemma looper_ok W dirpath config :
  extends (run_event_ok W dirpath config) (looper W dirpath config).
Proof.
  unfold looper. apply extends_bind; [apply extends_call; left; reflexivity|].
  intros directories. apply extends_for_each. intros d. unfold looper_dir.
  apply extends_bind; [apply extends_call; exists d; reflexivity|intros isdir].
  apply extends_bind;
    [destruct (negb isdir); [apply extends_emit; exact I|apply extends_ret]|intros _].
  destruct (re_match (w_unicode W) dir_name_withdrew d) eqn:Ew;
    [apply extends_emit; exact I|].
  destruct (re_match (w_unicode W) dir_name_active d) eqn:Ea;
    [|apply extends_emit; exact I].
  assert (Hd : classifyDirectory (w_unicode W) d = Active)
    by (unfold classifyDirectory; now rewrite Ew, Ea).
  unfold participantIngest.
  apply extends_bind; [apply extends_call; right; exists d; auto|intros files].
  apply extends_for_each. intros f. now apply participantIngest_file_ok.
Qed.

Lemma looper_event W dirpath config t e :
  In e (emitted (looper W dirpath config) t) -> run_event_ok W dirpath config e.
Proof.
  intros HIn. destruct (extends_emitted t (looper_ok W dirpath config)) as [_ F].
  rewrite Forall_forall in F. now apply F.
Qed.

Lemma normalize_name_chars raw :
  run table_char raw ->
  normalize raw <> [] /\ forallb name_char (normalize raw) = true.
Proof.
  intros [Hne Hall]. rewrite normalize_map. split.
  - destruct raw; [contradiction|discriminate].
  - rewrite forallb_forall in *. intros c Hc. apply in_map_iff in Hc as (x & <- & Hx).
    apply Hall in Hx. unfold table_char in Hx. unfold name_char.
    destruct (N.eqb x ch_space || N.eqb x ch_hyphen) eqn:E; [reflexivity|].
    apply orb_false_elim in E as [E1 E2]. rewrite E1, E2 in Hx. simpl in Hx.
    rewrite !orb_false_r in Hx. now rewrite Hx.
Qed.

(** X8: every call to the sink in a run of [looper] is for a table of the
    whitelist, with the storage path built from the configured root and
    that table name, the configured database, the data set mode on and
    [pid] as the one partition column. *)
Theorem run_sink_calls_whitelisted (W : World) (dirpath : pystr) (config : Config)
        (t : trace) (a : sink_args) :
  In (EvToParquet a) (emitted (looper W dirpath config) t) ->
  str_in (sa_table a) (whitelist_tables config) = true
  /\ table_path (aws_s3_data (aws config)) (sa_table a) = Returns (sa_path a)
  /\ sa_database a = aws_database (aws config)
  /\ sa_partition_cols a = [str "pid"]
  /\ sa_dataset a = true.
Proof.
  intros HIn. apply looper_event in HIn. simpl in HIn.
  destruct HIn as (raw & _ & _ & H). exact H.
Qed.

Lemma run_sink_calls_whitelisted_witness :
  str_in (str "sleep") (whitelist_tables demo_config) = true
  /\ table_path (aws_s3_data (aws demo_config)) (str "sleep")
     = Returns (str "s3://bucket/data/sleep/").
Proof.
  destruct (@run_sink_calls_whitelisted demo_world (str "root") demo_config []
              (sink_call (ODataFrame demo_uploaded) (str "s3://bucket/data/sleep/")
                         (str "sleep") demo_config)) as (H1 & H2 & _).
  - vm_compute. do 7 right. left. reflexivity.
  - split; [exact H1|exact H2].
Defined.

(** X9: every table name a run of [looper] hands to the sink is not empty
    and made of ASCII letters, digits and underscores only: the spaces and
    hyphens of the file name never reach the catalog. *)
Theorem run_table_names (W : World) (dirpath : pystr) (config : Config)
        (t : trace) (a : sink_args) :
  In (EvToParquet a) (emitted (looper W dirpath config) t) ->
  sa_table a <> [] /\ forallb name_char (sa_table a) = true.
Proof.
  intros HIn. apply looper_event in HIn. simpl in HIn.
  destruct HIn as (raw & Hraw & -> & _). now apply normalize_name_chars.
Qed.

Lemma run_table_names_witness :
  forallb name_char (str "sleep") = true.
Proof.
  refine (proj2 (@run_table_names demo_world (str "root") demo_config []
                   (sink_call (ODataFrame demo_uploaded) (str "s3://bucket/data/sleep/")
                              (str "sleep") demo_config) _)).
  vm_compute. do 7 right. left. reflexivity.
Defined.

(** X10: a run of [looper] only opens and reads files that lie in a
    directory classified active and whose name is matched with a table of
    the whitelist; it only lists the root and the active directories; so
    nothing inside a withdrawn or an invalid directory is listed, opened
    or read. *)
Theorem run_reads_active_only (W : World) (dirpath : pystr) (config : Config)
        (t : trace) (p : pystr) :
  let U := w_unicode W in
  (In (EvOpen p) (emitted (looper W dirpath config) t)
   \/ In (EvReadCsv p) (emitted (looper W dirpath config) t) ->
   exists d f pid raw,
     p = path_join (path_join dirpath d) f
     /\ classifyDirectory U d = Active
     /\ classifyFile U f = Matched pid raw
     /\ str_in (normalize raw) (whitelist_tables config) = true)
  /\ (In (EvListDir p) (emitted (looper W dirpath config) t) ->
      p = dirpath
      \/ exists d, p = path_join dirpath d /\ classifyDirectory U d = Active).
Proof.
  intros U. split.
  - intros [HIn | HIn]; apply looper_event in HIn; exact HIn.
  - intros HIn. apply looper_event in HIn. exact HIn.
Qed.

Lemma run_reads_active_only_witness :
  exists d f pid raw,
    str "root/PPID 001 Data/a_b_001_sleep.csv" = path_join (path_join (str "root") d) f
    /\ classifyDirectory ascii_only d = Active
    /\ classifyFile ascii_only f = Matched pid raw
    /\ str_in (normalize raw) (whitelist_tables demo_config) = true.
Proof.
  refine (proj1 (@run_reads_active_only demo_world (str "root") demo_config []
                   (str "root/PPID 001 Data/a_b_001_sleep.csv")) _).
  right. vm_compute. do 4 right. left. reflexivity.
Defined.

(** ** Errors nothing catches *)

Lemma for_each_app A (f : A -> M unit) l1 l2 t :
  for_each f (l1 ++ l2) t =
  match for_each f l1 t with
  | (t1, Returns _) => for_each f l2 t1
  | (t1, Raises e) => (t1, Raises e)
  end.
Proof.
  revert t. induction l1 as [|x l1 IH]; intros t; simpl; [reflexivity|].
  unfold bind. destruct (f x t) as [t' [[]|e]]; [apply IH|reflexivity].
Qed.

Lemma for_each_stops A (f : A -> M unit) pre x post t t1 t2 e :
  for_each f pre t = (t1, Returns tt) ->
  f x t1 = (t2, Raises e) ->
  for_each f (pre ++ x :: post) t = (t2, Raises e).
Proof.
  intros Hpre Hx. rewrite for_each_app, Hpre. simpl. unfold bind. now rewrite Hx.
Qed.

(** X11: an entry of the root that is not a directory but is named like an
    active one is warned about and then listed all the same; the error of
    that listing is caught nowhere, so it ends the run there: the entries
    after it are never looked at. *)
Theorem looper_stray_file (W : World) (dirpath : pystr) (config : Config)
        (t t1 : trace) (pre post : list pystr) (d : pystr) (e : pyexc) :
  w_listdir W dirpath = Returns (pre ++ d :: post) ->
  for_each (looper_dir W dirpath config) pre (t ++ [EvListDir dirpath])
  = (t1, Returns tt) ->
  w_isdir W (path_join dirpath d) = false ->
  classifyDirectory (w_unicode W) d = Active ->
  w_listdir W (path_join dirpath d) = Raises e ->
  looper W dirpath config t
  = (t1 ++ [EvIsDir (path_join dirpath d);
            EvPrint (str "Warning : " ++ d ++ str " is not a directory.");
            EvListDir (path_join dirpath d)],
     Raises e).
Proof.
  intros Hlist Hpre Hisdir Hd Herr.
  unfold looper, call. unfold bind at 1. unfold bind at 1. unfold emit, lift.
  rewrite Hlist.
  apply (@for_each_stops _ _ _ _ _ _ _ _ _ Hpre).
  unfold classifyDirectory in Hd. unfold looper_dir, call, bind, emit, lift, print.
  rewrite Hisdir. simpl.
  destruct (re_match (w_unicode W) dir_name_withdrew d); [discriminate|].
  destruct (re_match (w_unicode W) dir_name_active d); [|discriminate].
  unfold participantIngest, call, bind, emit, lift. rewrite Herr.
  now rewrite <- !app_assoc.
Qed.

Lemma looper_stray_file_witness :
  snd (looper stray_world (str "root") activity_config []) = Raises (OSError (str "root/PPID 003 Data"))
  /\ ~ In (EvIsDir (str "root/PPID 004 Data"))
          (fst (looper stray_world (str "root") activity_config [])).
Proof.
  pose proof (@looper_stray_file stray_world (str "root") activity_config []
                (fst (for_each (looper_dir stray_world (str "root") activity_config)
                               [str "PPID 001 Data"] [EvListDir (str "root")]))
                [str "PPID 001 Data"] [str "PPID 004 Data"] (str "PPID 003 Data")
                (OSError (str "root/PPID 003 Data"))
                eq_refl eq_refl eq_refl eq_refl eq_refl) as H.
  rewrite H. split; [reflexivity|].
  vm_compute. intros HIn.
  repeat (destruct HIn as [HIn | HIn]; [discriminate|]). exact HIn.
Defined.

(** X12: a whitelisted file that opens but that [pd.read_csv] cannot parse
    ends the run as well: the error leaves [participantIngest] right after
    the read, and the files listed after it are not processed. *)
Theorem participantIngest_unreadable_csv (W : World) (subdir : pystr)
        (config : Config) (t t1 : trace) (pre post : list pystr)
        (f pid raw : pystr) (e : pyexc) :
  w_listdir W subdir = Returns (pre ++ f :: post) ->
  for_each (participantIngest_file W subdir config) pre (t ++ [EvListDir subdir])
  = (t1, Returns tt) ->
  classifyFile (w_unicode W) f = Matched pid raw ->
  str_in (normalize raw) (whitelist_tables config) = true ->
  w_open W (path_join subdir f) = Returns tt ->
  w_read_csv W (path_join subdir f) = Raises e ->
  participantIngest W subdir config t
  = (t1 ++ [EvOpen (path_join subdir f); EvReadCsv (path_join subdir f)], Raises e).
Proof.
  intros Hlist Hpre Hf Hw Hopen Hread.
  unfold participantIngest, call. unfold bind at 1. unfold bind at 1.
  unfold emit, lift. rewrite Hlist.
  apply (@for_each_stops _ _ _ _ _ _ _ _ _ Hpre).
  unfold classifyFile in Hf. unfold participantIngest_file.
  destruct (re_match (w_unicode W) (file_name (w_unicode W)) f) as [m|]; [|discriminate].
  inversion Hf; subst pid raw. unfold normalize in Hw. rewrite Hw.
  unfold call, bind, emit, lift. rewrite Hopen, Hread. now rewrite <- !app_assoc.
Qed.

Lemma participantIngest_unreadable_csv_witness :
  participantIngest stray_world (str "root/PPID 001 Data") demo_config []
  = ([EvListDir (str "root/PPID 001 Data");
      EvOpen (str "root/PPID 001 Data/a_b_001_sleep.csv");
      EvReadCsv (str "root/PPID 001 Data/a_b_001_sleep.csv")],
     Raises (OtherException (str "EmptyDataError"))).
Proof.
  exact (@participantIngest_unreadable_csv stray_world (str "root/PPID 001 Data")
           demo_config [] [EvListDir (str "root/PPID 001 Data")]
           [str "a_b_001_heart.csv"] [str "a_b_001_activity.csv"]
           (str "a_b_001_sleep.csv") (str "001") (str "sleep")
           (OtherException (str "EmptyDataError"))
           eq_refl eq_refl eq_refl eq_refl eq_refl eq_refl).
Defined.

(** ** The two directory patterns *)

Lemma run_prefix_unique (p : N -> bool) : forall a b x y,
  forallb p a = true -> forallb p b = true ->
  (forall c x', x = c :: x' -> p c = false) ->
  (forall c y', y = c :: y' -> p c = false) ->
  a ++ x = b ++ y -> a = b /\ x = y.
Proof.
  induction a as [|c a IH]; intros [|c' b] x y Ha Hb Hx Hy E; simpl in *.
  - auto.
  - subst x. apply andb_prop in Hb as [Hc _].
    rewrite (Hx c' (b ++ y) eq_refl) in Hc. discriminate.
  - subst y. apply andb_prop in Ha as [Hc _].
    rewrite (Hy c (a ++ x) eq_refl) in Hc. discriminate.
  - apply andb_prop in Ha as [_ Ha]. apply andb_prop in Hb as [_ Hb].
    inversion E; subst. destruct (IH b x y Ha Hb Hx Hy H1) as [-> ->]. auto.
Qed.

Lemma dir_shapes_disjoint name :
  dir_shape (str " Data") name -> dir_shape (str " Data - withdrew") name -> False.
Proof.
  intros (ds & [_ Hds] & Hn) (ds' & [_ Hds'] & Hn').
  assert (E : exists nl nl',
             (nl = [] \/ nl = [ch_newline]) /\ (nl' = [] \/ nl' = [ch_newline])
             /\ ds ++ str " Data" ++ nl = ds' ++ str " Data - withdrew" ++ nl').
  { destruct Hn as [-> | ->], Hn' as [E | E];
      apply app_inv_head in E;
      [exists [], [] | exists [], [ch_newline] | exists [ch_newline], []
      | exists [ch_newline], [ch_newline]];
      (split; [auto|]); (split; [auto|]); rewrite ?app_nil_r; exact E. }
  destruct E as (nl & nl' & Hnl & Hnl' & E).
  apply run_prefix_unique with (p := ascii_digit) in E as [_ E]; auto.
  - destruct Hnl as [-> | ->], Hnl' as [-> | ->]; discriminate.
  - intros c x' [= <- _]. reflexivity.
  - intros c y' [= <- _]. reflexivity.
Qed.

(** X13: no name matches both directory patterns, so the order in which
    [looper] tests them does not matter: testing the active pattern first
    gives the same classification. *)
Theorem dir_patterns_disjoint (U : unicode) (name : pystr) :
  ~ (is_match U dir_name_active name = true
     /\ is_match U dir_name_withdrew name = true)
  /\ classifyDirectory U name
     = (if is_match U dir_name_active name then Active
        else if is_match U dir_name_withdrew name then Withdrawn
        else Invalid).
Proof.
  assert (Hdis : ~ (is_match U dir_name_active name = true
                    /\ is_match U dir_name_withdrew name = true)).
  { intros [Ha Hw].
    apply (dir_pattern_iff U (str " Data") name) in Ha.
    apply (dir_pattern_iff U (str " Data - withdrew") name) in Hw.
    exact (dir_shapes_disjoint Ha Hw). }
  split; [exact Hdis|].
  unfold classifyDirectory, is_match in *.
  destruct (re_match U dir_name_withdrew name), (re_match U dir_name_active name);
    try reflexivity. elim Hdis. auto.
Qed.

(** ** Start-up, when it succeeds and when it does not *)

Lemma lstrip_spaces U a s :
  forallb (py_isspace U) a = true -> lstrip U (a ++ s) = lstrip U s.
Proof.
  induction a as [|c a IH]; simpl; [reflexivity|].
  intros H. apply andb_prop in H as [Hc Ha]. rewrite Hc. now apply IH.
Qed.

Lemma strip_core U pre core post :
  forallb (py_isspace U) pre = true ->
  forallb (py_isspace U) post = true ->
  trimmed U core ->
  strip U (pre ++ core ++ post) = core.
Proof.
  intros Hpre Hpost Hcore. unfold strip. rewrite lstrip_spaces by exact Hpre.
  destruct core as [|c core]; [contradiction|]. destruct Hcore as [Hc Hlast].
  simpl lstrip. rewrite Hc.
  change (c :: core ++ post) with ((c :: core) ++ post). rewrite rev_app_distr.
  rewrite lstrip_spaces by (rewrite forallb_forall in *; intros x Hx;
                             apply Hpost; now apply in_rev).
  assert (Hne : c :: core <> []) by discriminate.
  destruct (exists_last Hne) as (body & z & E). rewrite E in *.
  rewrite last_last in Hlast. rewrite rev_app_distr. simpl. rewrite Hlast.
  simpl. now rewrite rev_involutive.
Qed.

Lemma str_in_In x l : str_in x l = true <-> In x l.
Proof.
  unfold str_in. rewrite existsb_exists. split.
  - intros (y & Hy & E). apply pystr_eqb_eq in E. now subst.
  - intros H. exists x. split; [exact H|apply pystr_eqb_refl].
Qed.

(** X14: when both files can be read and the section [AWS] has its two
    keys, [loadConfig] returns their values and the lines of the whitelist
    stripped, having made exactly the three start-up reads; so a table
    named on a line of [whitelist.txt] is admitted whatever white space
    surrounds the name on that line, the newline that ends it included. *)
Theorem loadConfig_success (W : World) (t : trace) (lines : list pystr)
        (sections : list (pystr * cfg_section)) (sec : cfg_section)
        (database s3_data : pystr) :
  w_open W whitelist_file = Returns tt ->
  w_readlines W whitelist_file = Returns lines ->
  w_config_read W config_file = Returns sections ->
  assoc (str "AWS") sections = Some sec ->
  assoc (str "aws_database") sec = Some (Returns database) ->
  assoc (str "aws_s3_data") sec = Some (Returns s3_data) ->
  loadConfig W t
  = (t ++ startup_events,
     Returns {| whitelist_tables := map (strip (w_unicode W)) lines;
                aws := {| aws_database := database; aws_s3_data := s3_data |} |})
  /\ (forall pre name post,
         forallb (py_isspace (w_unicode W)) pre = true ->
         forallb (py_isspace (w_unicode W)) post = true ->
         trimmed (w_unicode W) name ->
         In (pre ++ name ++ post) lines ->
         str_in name (map (strip (w_unicode W)) lines) = true).
Proof.
  intros Ho Hl Hc Hs Hdb Hs3. split.
  - unfold loadConfig, call, bind, emit, lift, has_option, get_option, startup_events.
    rewrite Ho, Hl, Hc, Hs, Hdb, Hs3. simpl. now rewrite <- !app_assoc.
  - intros pre name post Hpre Hpost Hname HIn. apply str_in_In.
    rewrite <- (strip_core (w_unicode W) pre name post Hpre Hpost Hname).
    now apply in_map.
Qed.

Lemma loadConfig_success_witness :
  loadConfig demo_world [] = (startup_events, Returns demo_config)
  /\ str_in (str "sleep") (whitelist_tables demo_config) = true.
Proof.
  destruct (@loadConfig_success demo_world []
              [str "sleep" ++ [ch_newline]; str "activity" ++ [ch_newline]]
              demo_sections
              [(str "aws_database", Returns (str "oura"));
               (str "aws_s3_data", Returns (str "s3://bucket/data"))]
              (str "oura") (str "s3://bucket/data")
              eq_refl eq_refl eq_refl eq_refl eq_refl eq_refl) as [H1 H2].
  split; [exact H1|].
  apply (H2 [] (str "sleep") [ch_newline]); try reflexivity.
  - split; reflexivity.
  - left. reflexivity.
Defined.

(** X15: start-up also fails when the whitelist cannot be opened, with the
    error of the open and before the configuration file is touched, and
    when the configuration has no section [AWS] (a missing [config.cfg]
    reads as no section at all), with [KeyError('AWS')] after the three
    reads; in both cases nothing is ingested. *)
Theorem loadConfig_failures (W : World) (directory : pystr) (t : trace) :
  (forall e, w_open W whitelist_file = Raises e ->
             main W directory t = (t ++ [EvOpen whitelist_file], Raises e))
  /\ (forall lines sections,
         w_open W whitelist_file = Returns tt ->
         w_readlines W whitelist_file = Returns lines ->
         w_config_read W config_file = Returns sections ->
         assoc (str "AWS") sections = None ->
         main W directory t = (t ++ startup_events, Raises (KeyError (str "AWS")))).
Proof.
  split.
  - intros e Ho. unfold main, loadConfig, call, bind, emit, lift. now rewrite Ho.
  - intros lines sections Ho Hl Hc Hs.
    unfold main, loadConfig, call, bind, emit, lift, startup_events.
    rewrite Ho, Hl, Hc, Hs. now rewrite <- !app_assoc.
Qed.

Lemma loadConfig_failures_witness :
  main no_whitelist_world (str "root") []
  = ([EvOpen whitelist_file], Raises (OSError whitelist_file))
  /\ main no_section_world (str "root") []
     = (startup_events, Raises (KeyError (str "AWS"))).
Proof.
  split.
  - exact (proj1 (loadConfig_failures no_whitelist_world (str "root") [])
             (OSError whitelist_file) eq_refl).
  - exact (proj2 (loadConfig_failures no_section_world (str "root") [])
             [str "sleep" ++ [ch_newline]; str "activity" ++ [ch_newline]] []
             eq_refl eq_refl eq_refl eq_refl).
Defined.

(** ** [showDataTypes] *)

Lemma assoc_in_nodup A (l : list (pystr * A)) c v :
  NoDup (map fst l) -> In (c, v) l -> assoc c l = Some v.
Proof.
  induction l as [|[k w] l IH]; intros Hnd HIn; [contradiction|].
  simpl in *. inversion Hnd as [|? ? Hk Hnd']; subst.
  destruct HIn as [[= -> ->] | HIn].
  - now rewrite pystr_eqb_refl.
  - destruct (pystr_eqb k c) eqn:E; [|now apply IH].
    apply pystr_eqb_eq in E. subst k. elim Hk.
    change c with (fst (c, v)). now apply in_map.
Qed.

Lemma showDataTypes_rows fmt data : forall l t,
  (forall c, In c l -> df_getitem data (fst c) = Returns (snd c)) ->
  for_each (showDataTypes_column fmt data) (map fst l) t
  = (t ++ map (type_line fmt) l, Returns tt).
Proof.
  induction l as [|[c col] l IH]; intros t Hl; cbn [map for_each fst].
  - unfold ret. now rewrite app_nil_r.
  - pose proof (Hl (c, col) (or_introl eq_refl)) as Hc. simpl in Hc.
    assert (Hrow : showDataTypes_column fmt data c t
                   = (t ++ [type_line fmt (c, col)], Returns tt)).
    { unfold showDataTypes_column, bind, lift, sampleEntry, getitem0, print, emit,
        type_line.
      rewrite Hc. simpl. destruct (s_values col); reflexivity. }
    unfold bind. rewrite Hrow.
    rewrite IH by (intros c' Hc'; apply Hl; now right).
    now rewrite <- app_assoc.
Qed.

(** X16: [showDataTypes] never raises and reads nothing: on a frame with
    the default index and distinct column names, as [pd.read_csv] builds
    it from rows as long as the header, it prints one line per column, in
    the order of the columns, with the name, the type and the value at
    label 0 of that column, which is its first value ([None] for a column
    without rows), and then an empty line. *)
Theorem showDataTypes_lines (fmt : cell -> pystr) (data : DataFrame) (t : trace) :
  NoDup (map fst (df_cols data)) ->
  showDataTypes fmt data t
  = (t ++ map (type_line fmt) (df_cols data) ++ [EvPrint []], Returns tt).
Proof.
  intros Hnd. unfold showDataTypes. unfold bind at 1.
  rewrite showDataTypes_rows.
  - unfold print, emit. now rewrite <- app_assoc.
  - intros [c col] HIn. unfold df_getitem. simpl.
    now rewrite (assoc_in_nodup _ _ _ Hnd HIn).
Qed.

Lemma showDataTypes_lines_witness :
  showDataTypes demo_fmt notes_frame [EvPrint (str "before")]
  = ([EvPrint (str "before");
      EvPrint (str "day --> object --> 2024-01-15");
      EvPrint (str "note --> object --> rested");
      EvPrint []],
     Returns tt).
Proof.
  refine (eq_trans (@showDataTypes_lines demo_fmt notes_frame
                      [EvPrint (str "before")] _) _).
  - apply NoDup_cons.
    + intros [H|[]]. vm_compute in H. discriminate H.
    + apply NoDup_cons; [intros []|apply NoDup_nil].
  - reflexivity.
Defined.

(** ** Greedy groups: any number of tags before the participant *)

Lemma star_cls_greedy R (p : N -> bool) : forall s1 s2 prev
    (k : option N -> pystr -> option R) x,
  forallb p s1 = true ->
  k (lastc prev s1) s2 = Some x ->
  (forall s1' s2', s1' <> [] -> forallb p s1' = true -> s2 = s1' ++ s2' ->
                   k (lastc prev (s1 ++ s1')) s2' = None) ->
  star_cls p prev (s1 ++ s2) k = Some x.
Proof.
  induction s1 as [|a s1 IH]; intros s2 prev k x Hall Hk Hlonger.
  - simpl in *. destruct s2 as [|b s2]; simpl; [exact Hk|].
    destruct (p b) eqn:Hb; [|exact Hk].
    destruct (star_cls p (Some b) s2 k) as [y|] eqn:Es; [|exact Hk].
    apply star_cls_sound in Es as (t1 & t2 & -> & Ht1 & Ey).
    assert (Hn : k (lastc prev ([] ++ b :: t1)) t2 = None).
    { apply Hlonger; [discriminate| |reflexivity]. simpl. now rewrite Hb, Ht1. }
    simpl in Hn. rewrite lastc_cons in Hn. rewrite Hn in Ey. discriminate.
  - simpl in Hall. apply andb_prop in Hall as [Ha Hall]. simpl. rewrite Ha.
    rewrite lastc_cons in Hk.
    rewrite (IH s2 (Some a) k x Hall Hk); [reflexivity|].
    intros s1' s2' Hne Hp E. specialize (Hlonger s1' s2' Hne Hp E).
    simpl in Hlonger. now rewrite lastc_cons in Hlonger.
Qed.

(** A group [(class+)] takes the longest run after which the rest of the
    pattern still matches. *)
Lemma rmatch_grp_plus_greedy U n (p : N -> bool) prev g rest c (k : cont captures) x :
  run p g ->
  k (lastc prev g) rest (setcap n g c) = Some x ->
  (forall g' rest' prev', g' <> [] -> forallb p g' = true -> rest = g' ++ rest' ->
                          k prev' rest' (setcap n (g ++ g') c) = None) ->
  rmatch U (Grp n (PlusCls p)) prev (g ++ rest) c k = Some x.
Proof.
  intros [Hne Hall] Hk Hlonger. destruct g as [|a g]; [contradiction|].
  simpl in Hall. apply andb_prop in Hall as [Ha Hall].
  cbn [rmatch app]. rewrite Ha.
  apply star_cls_greedy; [exact Hall| |].
  - change (a :: g ++ rest) with ((a :: g) ++ rest).
    rewrite firstn_app_len. rewrite lastc_cons in Hk. exact Hk.
  - intros s1' s2' Hne' Hp ->.
    change (a :: g ++ s1' ++ s2') with ((a :: g) ++ s1' ++ s2').
    rewrite app_assoc, firstn_app_len. now apply Hlonger.
Qed.

Lemma count_le_app sep a b : count sep b <= count sep (a ++ b).
Proof. rewrite count_app. lia. Qed.

Lemma file_tail3_count U prev s1 s2 c c' :
  Matches U file_tail3 prev s1 s2 c c' -> 1 <= count ch_underscore s1.
Proof.
  intros H. unfold file_tail3 in H.
  apply Matches_seq_inv in H as (a & b & c1 & -> & Ha & _).
  apply Matches_chr_inv in Ha as [-> _]. simpl. lia.
Qed.

Lemma file_tail2_count U prev s1 s2 c c' :
  Matches U (file_tail2 U) prev s1 s2 c c' -> 2 <= count ch_underscore s1.
Proof.
  intros H. unfold file_tail2 in H.
  apply Matches_seq_inv in H as (a & b & c1 & -> & Ha & Hb).
  apply Matches_chr_inv in Ha as [-> _].
  apply Matches_seq_inv in Hb as (g & b' & c2 & -> & _ & Hb).
  apply file_tail3_count in Hb. simpl. rewrite count_app. lia.
Qed.

Lemma file_tail1_count U prev s1 s2 c c' :
  Matches U (file_tail1 U) prev s1 s2 c c' -> 3 <= count ch_underscore s1.
Proof.
  intros H. unfold file_tail1 in H.
  apply Matches_seq_inv in H as (a & b & c1 & -> & Ha & Hb).
  apply Matches_chr_inv in Ha as [-> _].
  apply Matches_seq_inv in Hb as (g & b' & c2 & -> & _ & Hb).
  apply file_tail2_count in Hb. simpl. rewrite count_app. lia.
Qed.

(** The rest of the pattern fails on a string with too few underscores. *)
Lemma tail_needs_underscores U (r : regex) (n : nat) prev s c (k : cont captures) :
  (forall prev' s1 s2 c0 c', Matches U r prev' s1 s2 c0 c' ->
                              n <= count ch_underscore s1) ->
  count ch_underscore s < n ->
  rmatch U r prev s c k = None.
Proof.
  intros Hr Hlt. destruct (rmatch U r prev s c k) as [x|] eqn:E; [|reflexivity].
  apply rmatch_sound in E as (s1 & s2 & c' & -> & HM & _).
  apply Hr in HM. rewrite count_app in Hlt. lia.
Qed.

Lemma seg_no_underscore U s : forallb (seg_char U) s = true -> count ch_underscore s = 0.
Proof.
  induction s as [|c s IH]; simpl; [reflexivity|]. intros H.
  apply andb_prop in H as [Hc Hs]. unfold seg_char in Hc.
  apply andb_prop in Hc as [_ Hc]. destruct (N.eqb c ch_underscore); [discriminate|].
  now apply IH.
Qed.

Lemma table_no_underscore s : forallb table_char s = true -> count ch_underscore s = 0.
Proof.
  induction s as [|c s IH]; simpl; [reflexivity|]. intros H.
  apply andb_prop in H as [Hc Hs]. rewrite (IH Hs).
  destruct (N.eqb c ch_underscore) eqn:E; [|reflexivity].
  apply N.eqb_eq in E. subst c. discriminate.
Qed.

Lemma seg_word U s : run (seg_char U) s -> run (re_word U) s.
Proof.
  apply run_weaken. intros c H. unfold seg_char in H. now apply andb_prop in H as [H _].
Qed.

(** A run of a class cut off the front of a string that starts with an
    underscore takes that underscore along. *)
Lemma longer_takes_underscore g' rest' r :
  g' <> [] -> ch_underscore :: r = g' ++ rest' ->
  count ch_underscore rest' < 1 + count ch_underscore r.
Proof.
  intros Hne E. destruct g' as [|a g']; [contradiction|].
  inversion E; subst. rewrite count_app. lia.
Qed.

Lemma rmatch_seq U r1 r2 prev s c (k : cont captures) :
  rmatch U (r1 +++ r2) prev s c k
  = rmatch U r1 prev s c (fun prev' s' c' => rmatch U r2 prev' s' c' k).
Proof. reflexivity. Qed.

Lemma rmatch_chr U x prev s c (k : cont captures) :
  rmatch U (Chr x) prev (x :: s) c k = k (Some x) s c.
Proof. simpl. now rewrite N.eqb_refl. Qed.

Lemma file_tail3_run U prev raw c :
  run table_char raw ->
  rmatch U file_tail3 prev (ch_underscore :: raw ++ str ".csv") c (fun _ _ c' => Some c')
  = Some (setcap 4 raw c).
Proof.
  intros Hraw. unfold file_tail3. rewrite rmatch_seq, rmatch_chr, rmatch_seq.
  apply rmatch_grp_plus_greedy; [exact Hraw|reflexivity|].
  intros g' rest' prev' Hne Hp E. destruct g' as [|a g']; [contradiction|].
  inversion E; subst. discriminate.
Qed.

Lemma file_tail2_run U prev pid raw c :
  run (seg_char U) pid -> run table_char raw ->
  rmatch U (file_tail2 U) prev
         (ch_underscore :: pid ++ ch_underscore :: raw ++ str ".csv") c
         (fun _ _ c' => Some c')
  = Some (setcap 4 raw (setcap 3 pid c)).
Proof.
  intros Hpid Hraw. unfold file_tail2. rewrite rmatch_seq, rmatch_chr, rmatch_seq.
  apply rmatch_grp_plus_greedy; [now apply seg_word|now apply file_tail3_run|].
  intros g' rest' prev' Hne Hp E.
  apply tail_needs_underscores with (n := 1); [apply file_tail3_count|].
  pose proof (longer_takes_underscore _ Hne E) as Hlt.
  rewrite count_app in Hlt. rewrite (table_no_underscore _ (proj2 Hraw)) in Hlt.
  simpl in Hlt. lia.
Qed.

Lemma file_tail1_run U prev q pid raw c :
  run (seg_char U) q -> run (seg_char U) pid -> run table_char raw ->
  rmatch U (file_tail1 U) prev
         (ch_underscore :: q ++ ch_underscore :: pid ++ ch_underscore :: raw ++ str ".csv")
         c (fun _ _ c' => Some c')
  = Some (setcap 4 raw (setcap 3 pid (setcap 2 q c))).
Proof.
  intros Hq Hpid Hraw. unfold file_tail1. rewrite rmatch_seq, rmatch_chr, rmatch_seq.
  apply rmatch_grp_plus_greedy; [now apply seg_word|now apply file_tail2_run|].
  intros g' rest' prev' Hne Hp E.
  apply tail_needs_underscores with (n := 2); [apply file_tail2_count|].
  pose proof (longer_takes_underscore _ Hne E) as Hlt.
  rewrite count_app in Hlt. simpl in Hlt. rewrite count_app in Hlt.
  rewrite (seg_no_underscore U _ (proj2 Hpid)) in Hlt.
  rewrite (table_no_underscore _ (proj2 Hraw)) in Hlt. simpl in Hlt. lia.
Qed.

(** X17: whatever comes before, tags and underscores, as long as it is a
    run of word characters: when the last three segments of the name are a
    tag, the participant and the table followed by [.csv], the first group
    takes all that comes before, and the file is matched with the
    second-to-last segment as the participant and the last one as the raw
    table name.  So there can be any number of tags before the
    participant. *)
Theorem classifyFile_many_tags (U : unicode) (tags q pid raw : pystr) :
  run (re_word U) tags ->
  run (seg_char U) q ->
  run (seg_char U) pid ->
  run table_char raw ->
  re_match U (file_name U)
           (tags ++ str "_" ++ q ++ str "_" ++ pid ++ str "_" ++ raw ++ str ".csv")
  = Some [(4, raw); (3, pid); (2, q); (1, tags)]
  /\ classifyFile U (tags ++ str "_" ++ q ++ str "_" ++ pid ++ str "_" ++ raw
                       ++ str ".csv")
     = Matched pid raw.
Proof.
  intros Htags Hq Hpid Hraw.
  assert (E : re_match U (file_name U)
                (tags ++ str "_" ++ q ++ str "_" ++ pid ++ str "_" ++ raw ++ str ".csv")
              = Some [(4, raw); (3, pid); (2, q); (1, tags)]).
  { unfold re_match.
    change (file_name U) with (Bol +++ Grp 1 (PlusCls (re_word U)) +++ file_tail1 U).
    rewrite rmatch_seq. change (rmatch U Bol None ?s ?c ?k) with (k None s c).
    cbv beta. rewrite rmatch_seq.
    apply rmatch_grp_plus_greedy;
      [exact Htags|apply (@file_tail1_run U _ q pid raw _ Hq Hpid Hraw)|].
    intros g' rest' prev' Hne Hp E.
    apply tail_needs_underscores with (n := 3); [apply file_tail1_count|].
    pose proof (longer_takes_underscore _ Hne E) as Hlt.
    rewrite count_app in Hlt. simpl in Hlt. rewrite count_app in Hlt. simpl in Hlt.
    rewrite count_app in Hlt.
    rewrite (seg_no_underscore U _ (proj2 Hq)) in Hlt.
    rewrite (seg_no_underscore U _ (proj2 Hpid)) in Hlt.
    rewrite (table_no_underscore _ (proj2 Hraw)) in Hlt. simpl in Hlt. lia. }
  split; [exact E|]. unfold classifyFile. now rewrite E.
Qed.

Lemma classifyFile_many_tags_witness :
  classifyFile ascii_only (str "oura_export_2024_site7_001_sleep periods.csv")
  = Matched (str "001") (str "sleep periods").
Proof.
  refine (proj2 (@classifyFile_many_tags ascii_only (str "oura_export_2024")
                   (str "site7") (str "001") (str "sleep periods") _ _ _ _));
    split; try discriminate; reflexivity.
Defined.

